(** * Daily Python code generator: a shallow embedding and its properties

    The development follows [.github/workflows/scripts/generate_daily_code.py]
    (the templated generator) and [scripts/generate_daily_code.py] (the
    one-line snippet script).  Text is [string] (the UTF-8 bytes Python
    writes), Python integers are [Z], dictionaries and the file tree are
    [gmap]s, exceptions are an error monad over an explicit world. *)

From Stdlib Require Import ZArith List String Ascii Lia Bool.
From stdpp Require Import base option list gmap strings pretty sorting.

Local Open Scope Z_scope.

(** ** Python strings *)

Module PyStr.

Definition chr (n : nat) : string := String (ascii_of_nat n) EmptyString.

(** The characters that a Rocq literal cannot hold directly. *)
Definition nl : string := chr 10.
Definition dq : string := chr 34.
Definition dq3 : string := dq +:+ dq +:+ dq.

Definition nl_char : ascii := ascii_of_nat 10.
Definition tab_char : ascii := ascii_of_nat 9.

(** [sep.join(parts)] *)
Fixpoint join (sep : string) (parts : list string) : string :=
  match parts with
  | [] => EmptyString
  | [p] => p
  | p :: ps => p +:+ sep +:+ join sep ps
  end.

(** [EmptyString.join(parts)] *)
Definition concat (parts : list string) : string :=
  fold_right String.append EmptyString parts.

(** [s.split(c)] for a one-character separator: never the empty list. *)
Fixpoint split (c : ascii) (s : string) : list string :=
  match s with
  | EmptyString => [EmptyString]
  | String a s' =>
      if Ascii.eqb a c then EmptyString :: split c s'
      else match split c s' with
           | [] => [String a EmptyString]
           | l :: ls => String a l :: ls
           end
  end.

Fixpoint forallb_str (p : ascii -> bool) (s : string) : bool :=
  match s with
  | EmptyString => true
  | String a s' => p a && forallb_str p s'
  end.

Fixpoint map_str (f : ascii -> ascii) (s : string) : string :=
  match s with
  | EmptyString => EmptyString
  | String a s' => String (f a) (map_str f s')
  end.

(** Longest prefix whose characters satisfy [p], and what follows it. *)
Fixpoint span (p : ascii -> bool) (s : string) : string * string :=
  match s with
  | EmptyString => (EmptyString, EmptyString)
  | String a s' =>
      if p a then let '(l, r) := span p s' in (String a l, r)
      else (EmptyString, s)
  end.

(** [s.lstrip(chars)] for a one-character set. *)
Fixpoint lstrip (c : ascii) (s : string) : string :=
  match s with
  | String a s' => if Ascii.eqb a c then lstrip c s' else s
  | EmptyString => EmptyString
  end.

(** [s.startswith(p)] *)
Fixpoint startswith (p s : string) : bool :=
  match p, s with
  | EmptyString, _ => true
  | String a p', String b s' => Ascii.eqb a b && startswith p' s'
  | String _ _, EmptyString => false
  end.

(** [s[len(p):]] when [s.startswith(p)] *)
Fixpoint drop_prefix (p s : string) : string :=
  match p, s with
  | String _ p', String _ s' => drop_prefix p' s'
  | _, _ => s
  end.

(** [p in s] *)
Fixpoint contains (p s : string) : bool :=
  startswith p s ||
  match s with
  | EmptyString => false
  | String _ s' => contains p s'
  end.

Fixpoint common_prefix (a b : string) : string :=
  match a, b with
  | String x a', String y b' =>
      if Ascii.eqb x y then String x (common_prefix a' b') else EmptyString
  | _, _ => EmptyString
  end.

(** [ord(a)] *)
Definition ord (a : ascii) : N := N_of_ascii a.

Definition is_lower (a : ascii) : bool := ((97 <=? ord a) && (ord a <=? 122))%N.
Definition is_upper (a : ascii) : bool := ((65 <=? ord a) && (ord a <=? 90))%N.
Definition is_digit (a : ascii) : bool := ((48 <=? ord a) && (ord a <=? 57))%N.
Definition is_alpha (a : ascii) : bool := is_lower a || is_upper a.

Definition to_lower (a : ascii) : ascii :=
  if is_upper a then ascii_of_N (ord a + 32) else a.
Definition to_upper (a : ascii) : ascii :=
  if is_lower a then ascii_of_N (ord a - 32) else a.

(** [s.lower()], on ASCII text *)
Definition lower : string -> string := map_str to_lower.

(** [s.replace(a, b)] for single characters *)
Definition replace_char (a b : ascii) : string -> string :=
  map_str (fun c => if Ascii.eqb c a then b else c).

(** [s.title()], on ASCII text: a letter that follows a letter is
    lowercased, any other letter is uppercased. *)
Fixpoint title_from (previous_is_cased : bool) (s : string) : string :=
  match s with
  | EmptyString => EmptyString
  | String a s' =>
      String (if previous_is_cased then to_lower a else to_upper a)
             (title_from (is_alpha a) s')
  end.
Definition title : string -> string := title_from false.

End PyStr.
Export PyStr.

(** ** [slugify]: [re.sub(r"[^a-z0-9_]+", "_", name.lower())] *)

Definition slug_char (a : ascii) : bool :=
  is_lower a || is_digit a || Ascii.eqb a "_".

(** [in_run] holds while the scan is inside a run of characters outside
    [a-z0-9_]; the whole run is replaced by one underscore. *)
Fixpoint slug_from (in_run : bool) (s : string) : string :=
  match s with
  | EmptyString => EmptyString
  | String a s' =>
      if slug_char a then String a (slug_from false s')
      else if in_run then slug_from true s'
      else String "_" (slug_from true s')
  end.

Definition slugify (name : string) : string := slug_from false (lower name).

(** ** [textwrap.dedent] *)

Module Textwrap.

Definition is_blank (a : ascii) : bool := Ascii.eqb a " " || Ascii.eqb a tab_char.

(** [_whitespace_only_re.sub('', text)]: a line of spaces and tabs
    becomes the empty line. *)
Definition normalise (line : string) : string :=
  if forallb_str is_blank line then EmptyString else line.

(** [_leading_whitespace_re.findall(text)]: the indentation of every line
    that has a character other than space and tab. *)
Definition indents (lines : list string) : list string :=
  map (fun l => fst (span is_blank l))
      (List.filter (fun l => negb (forallb_str is_blank l)) lines).

(** One round of the loop that narrows [margin]. *)
Definition narrow (margin : option string) (indent : string) : option string :=
  match margin with
  | None => Some indent
  | Some m =>
      if startswith m indent then Some m
      else if startswith indent m then Some indent
      else Some (common_prefix m indent)
  end.

Definition margin_of (lines : list string) : option string :=
  fold_left narrow (indents lines) None.

(** [re.sub(r'(?m)^' + margin, '', text)], line by line *)
Definition strip_margin (margin line : string) : string :=
  if startswith margin line then drop_prefix margin line else line.

Definition dedent (text : string) : string :=
  let lines := map normalise (split nl_char text) in
  match margin_of lines with
  | Some (String a m) => join nl (map (strip_margin (String a m)) lines)
  | _ => join nl lines
  end.

End Textwrap.

(** ** Exceptions *)

Inductive exn : Type :=
| KeyError (key : string)
| IndexError
| ValueError (msg : string)
| NotModelled           (* a construct of [str.format] or [int] that the model leaves out *)
| OutOfFuel.            (* the bound of a modelled [while] loop was reached *)

Inductive result (A : Type) : Type :=
| Ok (a : A)
| Raise (e : exn).
Arguments Ok {A} a.
Arguments Raise {A} e.

Definition bindR {A B} (r : result A) (k : A -> result B) : result B :=
  match r with
  | Ok a => k a
  | Raise e => Raise e
  end.

(** ** Values of template parameters and [str.format] *)

Inductive pyval : Type :=
| VInt (z : Z)
| VStr (s : string)
| VList (l : list Z)
| VGrid (g : list (list Z)).

Module Fmt.

(** [str(l)] for a list of integers: [[1, 2, 3]] *)
Definition str_list (l : list Z) : string :=
  "[" +:+ join ", " (map pretty l) +:+ "]".

(** [format(v, EmptyString)], the text a field is replaced with *)
Definition str_val (v : pyval) : string :=
  match v with
  | VInt z => pretty z
  | VStr s => s
  | VList l => str_list l
  | VGrid g => "[" +:+ join ", " (map str_list g) +:+ "]"
  end.

Inductive piece : Type :=
| Text (a : ascii)
| Field (name : string).

Inductive mode : Type :=
| InText
| InField (name : string).

Definition unsupported (a : ascii) : bool :=
  existsb (Ascii.eqb a) ["{"; "!"; ":"; "."; "["]%char.

(** The scan of the format string, left to right: doubled braces are
    literal braces, [{name}] is a replacement field.  The pieces before
    the first malformed place are returned with the error met there, as
    the fields before it are looked up first. *)
Fixpoint parse (m : mode) (s : string) : list piece * option exn :=
  match s with
  | EmptyString =>
      match m with
      | InText => ([], None)
      | InField _ => ([], Some (ValueError "expected '}' before end of string"))
      end
  | String a s' =>
      match m with
      | InText =>
          if Ascii.eqb a "{" then
            match s' with
            | EmptyString => ([], Some (ValueError "Single '{' encountered in format string"))
            | String b s'' =>
                if Ascii.eqb b "{" then
                  let '(ps, e) := parse InText s'' in (Text "{" :: ps, e)
                else parse (InField EmptyString) s'
            end
          else if Ascii.eqb a "}" then
            match s' with
            | String "}" s'' => let '(ps, e) := parse InText s'' in (Text "}" :: ps, e)
            | _ => ([], Some (ValueError "Single '}' encountered in format string"))
            end
          else let '(ps, e) := parse InText s' in (Text a :: ps, e)
      | InField name =>
          if Ascii.eqb a "}" then
            let '(ps, e) := parse InText s' in (Field name :: ps, e)
          else if unsupported a then ([], Some NotModelled)
          else parse (InField (name +:+ String a EmptyString)) s'
      end
  end.

(** A field whose name is empty or a number is positional, and [format]
    is called with keyword arguments only. *)
Definition lookup_field (name : string) (kw : gmap string pyval) : result pyval :=
  if forallb_str is_digit name then Raise IndexError
  else match kw !! name with
       | Some v => Ok v
       | None => Raise (KeyError name)
       end.

Fixpoint render (ps : list piece) (kw : gmap string pyval) : result string :=
  match ps with
  | [] => Ok EmptyString
  | Text a :: ps' => bindR (render ps' kw) (fun rest => Ok (String a rest))
  | Field name :: ps' =>
      bindR (lookup_field name kw) (fun v =>
      bindR (render ps' kw) (fun rest => Ok (str_val v +:+ rest)))
  end.

(** [s.format] called with the keyword arguments [kw] *)
Definition format (s : string) (kw : gmap string pyval) : result string :=
  let '(ps, e) := parse InText s in
  bindR (render ps kw) (fun out =>
  match e with
  | None => Ok out
  | Some e => Raise e
  end).

(** The names of the replacement fields of a format string. *)
Definition fields (s : string) : list string :=
  omap (fun p => match p with Field n => Some n | Text _ => None end)
       (fst (parse InText s)).

Definition well_formed (s : string) : bool :=
  match snd (parse InText s) with None => true | Some _ => false end.

End Fmt.

(** ** The clock: [datetime.utcnow()] and [strftime] *)

Record datetime : Type := {
  year : Z; month : Z; day : Z; hour : Z; minute : Z; second : Z
}.

(** What [datetime] guarantees of its fields. *)
Definition datetime_ok (d : datetime) : Prop :=
  1 <= year d <= 9999 /\ 1 <= month d <= 12 /\ 1 <= day d <= 31 /\
  0 <= hour d <= 23 /\ 0 <= minute d <= 59 /\ 0 <= second d <= 59.

Definition same_date (d1 d2 : datetime) : Prop :=
  year d1 = year d2 /\ month d1 = month d2 /\ day d1 = day d2.

Module Strftime.

(** [%m], [%d], [%H], [%M]: two digits, zero padded *)
Definition pad2 (n : Z) : string :=
  if n <? 10 then "0" +:+ pretty n else pretty n.

(** [%Y]: the year in decimal (the C library does not pad it) *)
Definition pY (d : datetime) : string := pretty (year d).

(** [strftime("%Y%m%d")] *)
Definition Ymd (d : datetime) : string :=
  pY d +:+ pad2 (month d) +:+ pad2 (day d).

(** [strftime("%Y-%m-%d")] *)
Definition Y_m_d (d : datetime) : string :=
  pY d +:+ "-" +:+ pad2 (month d) +:+ "-" +:+ pad2 (day d).

(** [strftime("%Y-%m-%d %H:%M UTC")] *)
Definition Y_m_d_HM_UTC (d : datetime) : string :=
  Y_m_d d +:+ " " +:+ pad2 (hour d) +:+ ":" +:+ pad2 (minute d) +:+ " UTC".

End Strftime.

(** [int(s)] on a string of decimal digits, which is what [strftime]
    hands it; signs, blanks and underscores are outside the model. *)
Fixpoint int_from (acc : Z) (s : string) : result Z :=
  match s with
  | EmptyString => Ok acc
  | String a s' =>
      if is_digit a then int_from (10 * acc + Z.of_N (ord a - 48)) s'
      else Raise NotModelled
  end.

Definition int (s : string) : result Z :=
  match s with
  | EmptyString => Raise (ValueError "invalid literal for int() with base 10")
  | _ => int_from 0 s
  end.

(** [today_seed], given what [datetime.utcnow()] returned *)
Definition today_seed (now : datetime) : result Z := int (Strftime.Ymd now).

(** ** The pseudo-random generator: [random.Random]

    The generator is the standard library's, not the repository's: it is
    an interface here, with [Random._randbelow] as its primitive. *)

Class RandomGen : Type := {
  rng_state : Type;
  (** [random.Random(seed)] *)
  seed_rng : Z -> rng_state;
  (** [rng._randbelow(n)]: the value drawn and the generator afterwards *)
  randbelow : Z -> rng_state -> Z * rng_state;
}.

(** The contract of [_randbelow]: an integer of [range(n)]. *)
Class RandomGenLaws (G : RandomGen) : Prop := {
  randbelow_range : forall n s, 0 < n -> 0 <= fst (randbelow n s) < n
}.

(** [seq[i]] with Python's negative indices *)
Definition py_index {A} (seq : list A) (i : Z) : result A :=
  let n := Z.of_nat (length seq) in
  let j := if i <? 0 then i + n else i in
  if (0 <=? j) && (j <? n) then
    match seq !! Z.to_nat j with
    | Some x => Ok x
    | None => Raise IndexError
    end
  else Raise IndexError.

Section Random.
Context {G : RandomGen}.

(** Computations that draw from the generator and may raise. *)
Definition Rand (A : Type) : Type := rng_state -> result (A * rng_state).

Definition retR {A} (a : A) : Rand A := fun s => Ok (a, s).
Definition bindRand {A B} (c : Rand A) (k : A -> Rand B) : Rand B :=
  fun s => match c s with
           | Ok (a, s') => k a s'
           | Raise e => Raise e
           end.

(** [rng.randint(a, b)] is [a + rng._randbelow(b - a + 1)] *)
Definition randint (a b : Z) : Rand Z :=
  fun s => let '(r, s') := randbelow (b - a + 1) s in Ok (a + r, s').

(** [rng.choice(seq)] is [seq[rng._randbelow(len(seq))]] *)
Definition choice {A} (seq : list A) : Rand A :=
  fun s =>
    match seq with
    | [] => Raise IndexError
    | _ =>
        let '(i, s') := randbelow (Z.of_nat (length seq)) s in
        bindR (py_index seq i) (fun x => Ok (x, s'))
    end.

(** [[act for _ in range(n)]]: [n] draws, in order *)
Fixpoint repeatR {A} (n : nat) (act : Rand A) : Rand (list A) :=
  match n with
  | O => retR []
  | S n' => bindRand act (fun x => bindRand (repeatR n' act) (fun xs => retR (x :: xs)))
  end.

(** [[act for _ in range(count)]] where [count] is drawn first *)
Definition comprehension {A} (count : Rand Z) (act : Rand A) : Rand (list A) :=
  bindRand count (fun n => repeatR (Z.to_nat n) act).

End Random.

Notation "x <- c ;; k" := (bindRand c (fun x => k))
  (at level 100, c at next level, right associativity).

(** ** The template registry of [pick_template] *)
Definition fibonacci_iterative_code : string :=
  join nl
    [ EmptyString;
      "                def fibonacci(n: int) -> list[int]:";
      "                    " +:+ dq3 +:+ "Return the first n Fibonacci numbers (n>=1)." +:+ dq3;
      "                    if n <= 0:";
      "                        return []";
      "                    if n == 1:";
      "                        return [0]";
      "                    seq = [0, 1]";
      "                    for _ in range(2, n):";
      "                        seq.append(seq[-1] + seq[-2])";
      "                    return seq";
      "                if __name__ == " +:+ dq +:+ "__main__" +:+ dq +:+ ":";
      "                    N = {N}";
      "                    print(f" +:+ dq +:+ "Fibonacci first {N}: " +:+ dq +:+ ", fibonacci(N))";
      "            " ].

Definition sieve_of_eratosthenes_code : string :=
  join nl
    [ EmptyString;
      "                def primes_up_to(limit: int) -> list[int]:";
      "                    " +:+ dq3 +:+ "Return all primes <= limit using the sieve." +:+ dq3;
      "                    if limit < 2:";
      "                        return []";
      "                    sieve = [True] * (limit + 1)";
      "                    sieve[0] = sieve[1] = False";
      "                    p = 2";
      "                    while p * p <= limit:";
      "                        if sieve[p]:";
      "                            for m in range(p * p, limit + 1, p):";
      "                                sieve[m] = False";
      "                        p += 1";
      "                    return [i for i, is_prime in enumerate(sieve) if is_prime]";
      "                if __name__ == " +:+ dq +:+ "__main__" +:+ dq +:+ ":";
      "                    LIMIT = {LIMIT}";
      "                    print(f" +:+ dq +:+ "Primes up to {LIMIT}: " +:+ dq +:+ ", primes_up_to(LIMIT))";
      "            " ].

Definition merge_sort_code : string :=
  join nl
    [ EmptyString;
      "                from typing import List, TypeVar";
      "                T = TypeVar('T')";
      EmptyString;
      "                def merge_sort(arr: List[T]) -> List[T]:";
      "                    if len(arr) <= 1:";
      "                        return arr[:]";
      "                    mid = len(arr) // 2";
      "                    left = merge_sort(arr[:mid])";
      "                    right = merge_sort(arr[mid:])";
      "                    return merge(left, right)";
      EmptyString;
      "                def merge(left: List[T], right: List[T]) -> List[T]:";
      "                    i = j = 0";
      "                    out: List[T] = []";
      "                    while i < len(left) and j < len(right):";
      "                        if left[i] <= right[j]:";
      "                            out.append(left[i]); i += 1";
      "                        else:";
      "                            out.append(right[j]); j += 1";
      "                    out.extend(left[i:]); out.extend(right[j:])";
      "                    return out";
      EmptyString;
      "                if __name__ == " +:+ dq +:+ "__main__" +:+ dq +:+ ":";
      "                    data = {DATA}";
      "                    print(" +:+ dq +:+ "Input:" +:+ dq +:+ ", data)";
      "                    print(" +:+ dq +:+ "Sorted:" +:+ dq +:+ ", merge_sort(data))";
      "            " ].

Definition levenshtein_distance_code : string :=
  join nl
    [ EmptyString;
      "                def levenshtein(a: str, b: str) -> int:";
      "                    " +:+ dq3 +:+ "Return edit distance between a and b." +:+ dq3;
      "                    if a == b:";
      "                        return 0";
      "                    if not a:";
      "                        return len(b)";
      "                    if not b:";
      "                        return len(a)";
      "                    prev = list(range(len(b) + 1))";
      "                    for i, ca in enumerate(a, 1):";
      "                        curr = [i]";
      "                        for j, cb in enumerate(b, 1):";
      "                            ins = curr[j-1] + 1";
      "                            delete = prev[j] + 1";
      "                            subst = prev[j-1] + (ca != cb)";
      "                            curr.append(min(ins, delete, subst))";
      "                        prev = curr";
      "                    return prev[-1]";
      EmptyString;
      "                if __name__ == " +:+ dq +:+ "__main__" +:+ dq +:+ ":";
      "                    A = " +:+ dq +:+ "{A}" +:+ dq;
      "                    B = " +:+ dq +:+ "{B}" +:+ dq;
      "                    print(f" +:+ dq +:+ "levenshtein('{A}','{B}') =" +:+ dq +:+ ", levenshtein(A, B))";
      "            " ].

Definition dijkstra_on_grid_code : string :=
  join nl
    [ EmptyString;
      "                import heapq";
      "                from typing import Tuple, List";
      EmptyString;
      "                def neighbors(r: int, c: int, R: int, C: int):";
      "                    for dr, dc in ((1,0),(-1,0),(0,1),(0,-1)):";
      "                        nr, nc = r+dr, c+dc";
      "                        if 0 <= nr < R and 0 <= nc < C:";
      "                            yield nr, nc";
      EmptyString;
      "                def dijkstra(grid: List[List[int]], start=(0,0), goal=None) -> int:";
      "                    R, C = len(grid), len(grid[0])";
      "                    if goal is None: goal = (R-1, C-1)";
      "                    dist = [[float('inf')]*C for _ in range(R)]";
      "                    sr, sc = start";
      "                    dist[sr][sc] = grid[sr][sc]";
      "                    pq: List[Tuple[int,int,int]] = [(grid[sr][sc], sr, sc)]";
      "                    while pq:";
      "                        d, r, c = heapq.heappop(pq)";
      "                        if (r,c) == goal:";
      "                            return d";
      "                        if d != dist[r][c]:";
      "                            continue";
      "                        for nr, nc in neighbors(r,c,R,C):";
      "                            nd = d + grid[nr][nc]";
      "                            if nd < dist[nr][nc]:";
      "                                dist[nr][nc] = nd";
      "                                heapq.heappush(pq, (nd, nr, nc))";
      "                    return -1";
      EmptyString;
      "                if __name__ == " +:+ dq +:+ "__main__" +:+ dq +:+ ":";
      "                    grid = {GRID}";
      "                    print(" +:+ dq +:+ "Grid:" +:+ dq +:+ ")";
      "                    for row in grid: print(row)";
      "                    print(" +:+ dq +:+ "Min path cost:" +:+ dq +:+ ", dijkstra(grid))";
      "            " ].

Section Registry.
Context {G : RandomGen}.

Record template : Type := {
  name : string;
  desc : string;
  code : string;
  params : Rand (gmap string pyval);
}.

(** [sorted(X) or [0]] for a set [X] of integers *)
Definition sorted_or_zero (X : gset Z) : list Z :=
  match merge_sort Z.le (elements X) with
  | [] => [0]
  | l => l
  end.

(** [EmptyString.join(r.choice(alphabet) for _ in range(r.randint(4, 7)))] *)
Definition random_word (alphabet : string) : Rand string :=
  cs <- comprehension (randint 4 7) (choice (list_ascii_of_string alphabet)) ;;
  retR (string_of_list_ascii cs).

Definition fibonacci_iterative : template :=
  {| name := "fibonacci_iterative";
     desc := "Compute the first N Fibonacci numbers iteratively.";
     code := fibonacci_iterative_code;
     params := n <- randint 8 20 ;; retR {[ "N" := VInt n ]} |}.

Definition sieve_of_eratosthenes : template :=
  {| name := "sieve_of_eratosthenes";
     desc := "Generate primes up to a limit using the Sieve of Eratosthenes.";
     code := sieve_of_eratosthenes_code;
     params := n <- randint 50 200 ;; retR {[ "LIMIT" := VInt n ]} |}.

Definition merge_sort_template : template :=
  {| name := "merge_sort";
     desc := "Stable merge sort implementation with type hints.";
     code := merge_sort_code;
     params :=
       xs <- comprehension (randint 8 14) (randint (-50) 50) ;;
       retR {[ "DATA" := VList (sorted_or_zero (list_to_set xs)) ]} |}.

Definition levenshtein_distance : template :=
  {| name := "levenshtein_distance";
     desc := "Compute Levenshtein (edit) distance between two strings.";
     code := levenshtein_distance_code;
     params :=
       a <- random_word "codecraft" ;;
       b <- random_word "workflows" ;;
       retR (<[ "B" := VStr b ]> {[ "A" := VStr a ]}) |}.

(** The row count is drawn once; the length of a row is drawn anew for
    every row. *)
Definition dijkstra_on_grid : template :=
  {| name := "dijkstra_on_grid";
     desc := "Dijkstra shortest path on a small weighted grid (no deps).";
     code := dijkstra_on_grid_code;
     params :=
       g <- comprehension (randint 4 6) (comprehension (randint 4 6) (randint 1 9)) ;;
       retR {[ "GRID" := VGrid g ]} |}.

Definition templates : list template :=
  [ fibonacci_iterative; sieve_of_eratosthenes; merge_sort_template;
    levenshtein_distance; dijkstra_on_grid ].

Definition pick_template : Rand template := choice templates.

End Registry.

(** ** The world of the script: the file tree, the clock reads, the output

    A path is the list of its parts ([pathlib]'s own view); the tree maps
    the paths of regular files to their content.  Directories are implicit:
    [mkdir(parents=True, exist_ok=True)] changes nothing that is observed.
    The k-th call of [datetime.utcnow()] answers [clock k]. *)

Record world : Type := {
  files : gmap (list string) string;
  now_calls : nat;
  stdout : list string;
}.

Definition IO (A : Type) : Type := world -> result A * world.

Definition retIO {A} (a : A) : IO A := fun w => (Ok a, w).
Definition raiseIO {A} (e : exn) : IO A := fun w => (Raise e, w).
Definition liftR {A} (r : result A) : IO A := fun w => (r, w).
Definition bindIO {A B} (c : IO A) (k : A -> IO B) : IO B :=
  fun w => match c w with
           | (Ok a, w') => k a w'
           | (Raise e, w') => (Raise e, w')
           end.

Notation "x <~ c ;; k" := (bindIO c (fun x => k))
  (at level 100, c at next level, right associativity).
Notation "c ;;; k" := (bindIO c (fun _ => k))
  (at level 100, right associativity).

Module Fs.

(** [p / part] *)
Definition div (p : list string) (part : string) : list string := p ++ [part].

(** [p.as_posix()] *)
Definition as_posix (p : list string) : string := join "/" p.

(** [p.relative_to(root)] *)
Fixpoint relative_to (root p : list string) : result (list string) :=
  match root, p with
  | [], _ => Ok p
  | r :: root', x :: p' =>
      if String.eqb r x then relative_to root' p'
      else Raise (ValueError "path is not in the subpath of root")
  | _ :: _, [] => Raise (ValueError "path is not in the subpath of root")
  end.

Definition mkdir (p : list string) : IO unit := retIO tt.

(** [p.exists()] *)
Definition exists_ (p : list string) : IO bool :=
  fun w => (Ok (bool_decide (is_Some (files w !! p))), w).

(** [p.write_text(text)], also [open(p, "w")] followed by the writes *)
Definition write_text (p : list string) (text : string) : IO unit :=
  fun w => (Ok tt, {| files := <[p := text]> (files w);
                      now_calls := now_calls w; stdout := stdout w |}).

(** [p.touch(exist_ok=True)] *)
Definition touch (p : list string) : IO unit :=
  fun w => match files w !! p with
           | Some _ => (Ok tt, w)
           | None => write_text p EmptyString w
           end.

(** [with p.open("a") as f: f.write(text)] *)
Definition append_text (p : list string) (text : string) : IO unit :=
  fun w => write_text p (default EmptyString (files w !! p) +:+ text) w.

Definition print (line : string) : IO unit :=
  fun w => (Ok tt, {| files := files w; now_calls := now_calls w;
                      stdout := stdout w ++ [line] |}).

End Fs.

Infix "/" := Fs.div : list_scope.

(** ** The templated generator *)

(** The separator of an index line as the source has it: the three
    characters U+00E2 U+20AC U+201D, eight bytes in UTF-8. *)
Definition index_separator : string := "â€”".

(** The em dash U+2014 in UTF-8. *)
Definition em_dash : string := chr 226 +:+ chr 128 +:+ chr 148.

Section Generator.
Context {G : RandomGen}.
(** [ROOT = Path(__file__).resolve().parents[1]] *)
Variable ROOT : list string.
Variable clock : nat -> datetime.

Definition OUT_DIR : list string := (ROOT / "daily_code")%list.
Definition index_path : list string := (OUT_DIR / "README.md")%list.

Definition utcnow : IO datetime :=
  fun w => (Ok (clock (now_calls w)),
            {| files := files w; now_calls := S (now_calls w); stdout := stdout w |}).

Definition index_header : string :=
  "# Daily Python Code" +:+ nl +:+ nl +:+
  "Auto-generated snippets, one per day." +:+ nl +:+ nl.

Definition ensure_index : IO unit :=
  Fs.mkdir OUT_DIR ;;;
  Fs.touch (OUT_DIR / ".gitkeep")%list ;;;
  let index := index_path in
  present <~ Fs.exists_ index ;;
  if negb present then Fs.write_text index index_header else retIO tt.

Definition index_line (now rel title desc : string) : string :=
  "- " +:+ now +:+ ": [" +:+ title +:+ "](" +:+ rel +:+ ") " +:+
  index_separator +:+ " " +:+ desc +:+ nl.

Definition update_index (rel_path : list string) (title desc : string) : IO unit :=
  let index := index_path in
  t <~ utcnow ;;
  let now := Strftime.Y_m_d_HM_UTC t in
  let line := index_line now (Fs.as_posix rel_path) title desc in
  Fs.append_text index line.

(** The file name tried at each round of the [while] loop. *)
Definition versioned_name (date_str slug : string) (counter : Z) : string :=
  date_str +:+ "_" +:+ slug +:+ "_v" +:+ pretty counter +:+ ".py".

(** [while out_path.exists(): ...], with [fuel] rounds at most *)
Fixpoint free_path (fuel : nat) (year_dir : list string) (date_str slug : string)
    (out_path : list string) (counter : Z) : IO (list string) :=
  taken <~ Fs.exists_ out_path ;;
  if taken then
    match fuel with
    | O => raiseIO OutOfFuel
    | S fuel' =>
        free_path fuel' year_dir date_str slug
          (year_dir / versioned_name date_str slug counter)%list (counter + 1)
    end
  else retIO out_path.

Definition header (t : template) (date_str : string) : string :=
  dq3 +:+ nl +:+
  "Title: " +:+ title (replace_char "_" " " (name t)) +:+ nl +:+
  "Date: " +:+ date_str +:+ nl +:+
  "Description: " +:+ desc t +:+ nl +:+
  "This file was auto-generated by scripts/generate_daily_code.py" +:+ nl +:+
  dq3 +:+ nl.

(** The code of the template: dedented, formatted with the parameters,
    its leading newlines stripped. *)
Definition body (t : template) (kw : gmap string pyval) : result string :=
  bindR (Fmt.format (Textwrap.dedent (code t)) kw) (fun b => Ok (lstrip nl_char b)).

(** The text of the generated file. *)
Definition rendered (t : template) (kw : gmap string pyval) (date_str : string) : result string :=
  bindR (body t kw) (fun b => Ok (header t date_str +:+ b)).

(** The statements of [main] after the template and its parameters are
    known; the result is the path written. *)
Definition emit (t : template) (kw : gmap string pyval) : IO (list string) :=
  t1 <~ utcnow ;;
  let date_str := Strftime.Y_m_d t1 in
  t2 <~ utcnow ;;
  let year_dir := (OUT_DIR / Strftime.pY t2)%list in
  Fs.mkdir year_dir ;;;
  let base_name := date_str +:+ "_" +:+ slugify (name t) +:+ ".py" in
  out_path <~ (fun w => free_path (size (files w)) year_dir date_str
                                   (slugify (name t)) (year_dir / base_name)%list 2 w) ;;
  text <~ liftR (rendered t kw date_str) ;;
  Fs.write_text out_path text ;;;
  rel <~ liftR (Fs.relative_to ROOT out_path) ;;
  update_index rel (name t) (desc t) ;;;
  Fs.print ("Wrote " +:+ Fs.as_posix rel) ;;;
  retIO out_path.

(** [main], with the function that picks the template as a parameter;
    the result records the locals [t], [params] and [out_path]. *)
Definition main_with (pick : Rand template)
  : IO (template * gmap string pyval * list string) :=
  t0 <~ utcnow ;;
  seed <~ liftR (today_seed t0) ;;
  let rng := seed_rng seed in
  ensure_index ;;;
  picked <~ liftR (pick rng) ;;
  let '(t, rng) := picked in
  drawn <~ liftR (params t rng) ;;
  let '(kw, rng) := drawn in
  out_path <~ emit t kw ;;
  retIO (t, kw, out_path).

Definition main : IO (template * gmap string pyval * list string) :=
  main_with pick_template.

End Generator.

(** ** The one-line snippet script, [scripts/generate_daily_code.py]

    It draws from the module-level generator of [random], whose state at
    start-up is an input here; its paths are relative to the working
    directory. *)

Module SnippetScript.
Section Script.
Context {G : RandomGen}.
Variable clock : nat -> datetime.

Definition snippets : list string :=
  [ "print('Hello from your daily Python script!')";
    "print('Coding is fun — keep going!')";
    "for i in range(1, 6): print(f'Square of {i} is {i*i}')";
    "print(sum(range(1, 101)))" ].

Definition readme : list string := ["README.md"].

Definition file_path (today : string) : string := "daily_code/" +:+ today +:+ ".py".

Definition entry (today : string) : string :=
  "- " +:+ today +:+ ": Added `" +:+ file_path today +:+ "`" +:+ nl.

Definition script (rng : rng_state) : IO string :=
  Fs.mkdir ["daily_code"] ;;;
  t <~ utcnow clock ;;
  let today := Strftime.Y_m_d t in
  picked <~ liftR (choice snippets rng) ;;
  let code := fst picked in
  Fs.write_text ["daily_code"; today +:+ ".py"]
    (("# Auto-generated on " +:+ today +:+ nl) +:+ (code +:+ nl)) ;;;
  present <~ Fs.exists_ readme ;;
  (if present then Fs.append_text readme (entry today)
   else Fs.write_text readme (("# Daily Python Code Log" +:+ nl +:+ nl) +:+ entry today)) ;;;
  Fs.print ("Generated " +:+ file_path today) ;;;
  retIO (file_path today).

End Script.
End SnippetScript.

(** ** The code that the templates generate *)

Module Generated.

(** *** [fibonacci], of the template [fibonacci_iterative] *)

(** [for _ in range(2, n): seq.append(seq[-1] + seq[-2])], [rounds]
    being the length of the range *)
Fixpoint fibonacci_loop (rounds : nat) (seq : list Z) : result (list Z) :=
  match rounds with
  | O => Ok seq
  | S rounds' =>
      bindR (py_index seq (-1)) (fun a =>
      bindR (py_index seq (-2)) (fun b =>
      fibonacci_loop rounds' (seq ++ [a + b])))
  end.

Definition fibonacci (n : Z) : result (list Z) :=
  if n <=? 0 then Ok []
  else if n =? 1 then Ok [0]
  else fibonacci_loop (Z.to_nat (n - 2)) [0; 1].

(** *** [neighbors] and [dijkstra], of the template [dijkstra_on_grid] *)

Definition neighbors (r c R C : Z) : list (Z * Z) :=
  List.filter (fun '(nr, nc) => (0 <=? nr) && (nr <? R) && (0 <=? nc) && (nc <? C))
    (map (fun '(dr, dc) => (r + dr, c + dc)) [(1, 0); (-1, 0); (0, 1); (0, -1)]).

(** [grid[r][c]] *)
Definition at2 {A} (grid : list (list A)) (r c : Z) : result A :=
  bindR (py_index grid r) (fun row => py_index row c).

(** [dist[r][c] = d], for indices within [dist] *)
Definition set2 {A} (dist : list (list A)) (r c : Z) (d : A) : list (list A) :=
  alter (fun row => <[Z.to_nat c := d]> row) (Z.to_nat r) dist.

(** The order of the tuples [(d, r, c)]. *)
Definition tuple_ltb (x y : Z * Z * Z) : bool :=
  let '(d1, r1, c1) := x in
  let '(d2, r2, c2) := y in
  (d1 <? d2) || ((d1 =? d2) && ((r1 <? r2) || ((r1 =? r2) && (c1 <? c2)))).

Definition smallest (x : Z * Z * Z) (pq : list (Z * Z * Z)) : Z * Z * Z :=
  fold_left (fun m y => if tuple_ltb y m then y else m) pq x.

Fixpoint remove_first (x : Z * Z * Z) (pq : list (Z * Z * Z)) : list (Z * Z * Z) :=
  match pq with
  | [] => []
  | y :: pq' => if decide (x = y) then pq' else y :: remove_first x pq'
  end.

(** [heapq.heappop(pq)]: the smallest tuple, and the queue without it.
    The queue is kept as a bag; [heapq.heappush] adds to it. *)
Definition heappop (pq : list (Z * Z * Z)) : option (Z * Z * Z * list (Z * Z * Z)) :=
  match pq with
  | [] => None
  | x :: pq' => let m := smallest x pq' in Some (m, remove_first m pq)
  end.

Definition heappush (pq : list (Z * Z * Z)) (x : Z * Z * Z) : list (Z * Z * Z) := x :: pq.

(** [nd < dist[nr][nc]], where [None] stands for [float('inf')] *)
Definition below (nd : Z) (d : option Z) : bool :=
  match d with
  | None => true
  | Some d' => nd <? d'
  end.

(** The [for nr, nc in neighbors(r,c,R,C)] loop. *)
Fixpoint relax (grid : list (list Z)) (d : Z) (ns : list (Z * Z))
    (dist : list (list (option Z))) (pq : list (Z * Z * Z))
  : result (list (list (option Z)) * list (Z * Z * Z)) :=
  match ns with
  | [] => Ok (dist, pq)
  | (nr, nc) :: ns' =>
      bindR (at2 grid nr nc) (fun w =>
      let nd := d + w in
      bindR (at2 dist nr nc) (fun old =>
      if below nd old
      then relax grid d ns' (set2 dist nr nc (Some nd)) (heappush pq (nd, nr, nc))
      else relax grid d ns' dist pq))
  end.

(** The [while pq] loop, with [fuel] rounds at most. *)
Fixpoint dijkstra_loop (fuel : nat) (grid : list (list Z)) (R C : Z) (goal : Z * Z)
    (dist : list (list (option Z))) (pq : list (Z * Z * Z)) : result Z :=
  match heappop pq with
  | None => Ok (-1)
  | Some (d, r, c, pq') =>
      match fuel with
      | O => Raise OutOfFuel
      | S fuel' =>
          if decide ((r, c) = goal) then Ok d
          else
            bindR (at2 dist r c) (fun cur =>
            if negb (bool_decide (Some d = cur))
            then dijkstra_loop fuel' grid R C goal dist pq'
            else
              bindR (relax grid d (neighbors r c R C) dist pq') (fun st =>
              dijkstra_loop fuel' grid R C goal (fst st) (snd st)))
      end
  end.

(** [dijkstra(grid)], with the default [start] and [goal] *)
Definition dijkstra (fuel : nat) (grid : list (list Z)) : result Z :=
  let R := Z.of_nat (length grid) in
  bindR (py_index grid 0) (fun row0 =>
  let C := Z.of_nat (length row0) in
  let goal := (R - 1, C - 1) in
  let dist := replicate (Z.to_nat R) (replicate (Z.to_nat C) (@None Z)) in
  let '(sr, sc) := (0, 0) in
  bindR (at2 grid sr sc) (fun w0 =>
  let dist := set2 dist sr sc (Some w0) in
  dijkstra_loop fuel grid R C goal dist [(w0, sr, sc)])).

(** *** [primes_up_to], of the template [sieve_of_eratosthenes] *)

(** [seq[i] = x] with Python's negative indices *)
Definition py_setitem {A} (seq : list A) (i : Z) (x : A) : result (list A) :=
  let n := Z.of_nat (length seq) in
  let j := if i <? 0 then i + n else i in
  if (0 <=? j) && (j <? n) then Ok (<[Z.to_nat j := x]> seq)
  else Raise IndexError.

(** [range(start, stop, step)] for a positive [step] *)
Definition range3 (start stop step : Z) : list Z :=
  map (fun k => start + Z.of_nat k * step)
      (seq 0 (Z.to_nat ((stop - start + step - 1) / step))).

(** [for m in ms: sieve[m] = False] *)
Fixpoint strike (ms : list Z) (sieve : list bool) : result (list bool) :=
  match ms with
  | [] => Ok sieve
  | m :: ms' => bindR (py_setitem sieve m false) (strike ms')
  end.

(** The loop [while p * p <= limit], with [fuel] rounds at most. *)
Fixpoint sieve_loop (fuel : nat) (limit p : Z) (sieve : list bool) : result (list bool) :=
  if p * p <=? limit then
    match fuel with
    | O => Raise OutOfFuel
    | S fuel' =>
        bindR (py_index sieve p) (fun is_prime =>
        bindR (if is_prime then strike (range3 (p * p) (limit + 1) p) sieve
               else Ok sieve) (fun sieve' =>
        sieve_loop fuel' limit (p + 1) sieve'))
    end
  else Ok sieve.

(** [[i for i, is_prime in enumerate(sieve) if is_prime]], counting from [i] *)
Fixpoint marked_from (i : Z) (sieve : list bool) : list Z :=
  match sieve with
  | [] => []
  | is_prime :: sieve' =>
      if is_prime then i :: marked_from (i + 1) sieve' else marked_from (i + 1) sieve'
  end.

Definition primes_up_to (limit : Z) : result (list Z) :=
  if limit <? 2 then Ok []
  else
    let sieve := replicate (Z.to_nat (limit + 1)) true in
    bindR (py_setitem sieve 0 false) (fun sieve =>
    bindR (py_setitem sieve 1 false) (fun sieve =>
    bindR (sieve_loop (Z.to_nat limit) limit 2 sieve) (fun sieve =>
    Ok (marked_from 0 sieve)))).

(** *** [merge] and [merge_sort], of the template [merge_sort] *)

(** The loop [while i < len(left) and j < len(right)], with [fuel] rounds
    at most, followed by the two [extend]. *)
Fixpoint merge_loop (fuel : nat) (left right : list Z) (i j : nat) (out : list Z)
  : result (list Z) :=
  if (i <? length left)%nat && (j <? length right)%nat then
    match fuel with
    | O => Raise OutOfFuel
    | S fuel' =>
        bindR (py_index left (Z.of_nat i)) (fun x =>
        bindR (py_index right (Z.of_nat j)) (fun y =>
        if x <=? y then merge_loop fuel' left right (S i) j (out ++ [x])
        else merge_loop fuel' left right i (S j) (out ++ [y])))
    end
  else Ok (out ++ drop i left ++ drop j right).

Definition merge (left right : list Z) : result (list Z) :=
  merge_loop (length left + length right) left right 0 0 [].

(** [merge_sort], the depth of the recursion bounded by [fuel] *)
Fixpoint merge_sort_within (fuel : nat) (arr : list Z) : result (list Z) :=
  if (length arr <=? 1)%nat then Ok arr
  else
    match fuel with
    | O => Raise OutOfFuel
    | S fuel' =>
        let mid := (length arr / 2)%nat in
        bindR (merge_sort_within fuel' (take mid arr)) (fun left =>
        bindR (merge_sort_within fuel' (drop mid arr)) (fun right =>
        merge left right))
    end.

Definition merge_sort (arr : list Z) : result (list Z) :=
  merge_sort_within (length arr) arr.

(** *** [levenshtein], of the template [levenshtein_distance]

    The strings are lists of characters. *)

(** [(ca != cb)] as an integer *)
Definition differ (ca cb : ascii) : Z := if Ascii.eqb ca cb then 0 else 1.

(** The loop [for j, cb in enumerate(b, 1)], which fills [curr]. *)
Fixpoint levenshtein_row (prev : list Z) (ca : ascii) (b : list ascii) (j : Z)
    (curr : list Z) : result (list Z) :=
  match b with
  | [] => Ok curr
  | cb :: b' =>
      bindR (py_index curr (j - 1)) (fun left_cell =>
      let ins := left_cell + 1 in
      bindR (py_index prev j) (fun up_cell =>
      let delete := up_cell + 1 in
      bindR (py_index prev (j - 1)) (fun diag_cell =>
      let subst := diag_cell + differ ca cb in
      levenshtein_row prev ca b' (j + 1)
        (curr ++ [Z.min (Z.min ins delete) subst]))))
  end.

(** The loop [for i, ca in enumerate(a, 1)]. *)
Fixpoint levenshtein_rows (a : list ascii) (i : Z) (b : list ascii) (prev : list Z)
  : result (list Z) :=
  match a with
  | [] => Ok prev
  | ca :: a' =>
      bindR (levenshtein_row prev ca b 1 [i]) (fun curr =>
      levenshtein_rows a' (i + 1) b curr)
  end.

Definition levenshtein (a b : list ascii) : result Z :=
  if bool_decide (a = b) then Ok 0
  else match a, b with
       | [], _ => Ok (Z.of_nat (length b))
       | _, [] => Ok (Z.of_nat (length a))
       | _, _ =>
           let prev := map Z.of_nat (seq 0 (length b + 1)) in
           bindR (levenshtein_rows a 1 b prev) (fun prev => py_index prev (-1))
       end.

End Generated.

(** ** Generators

    [Mt] follows CPython's [random.Random]: the Mersenne Twister MT19937
    of [_randommodule.c], seeded from an integer by [init_by_array] over
    its 32-bit words, with [_randbelow] the rejection loop of
    [Lib/random.py].  [Lcg] is a small congruential generator, a stand-in
    that meets the contract of [_randbelow] in every state. *)

Module Mt.

Definition N : nat := 624.
Definition M : nat := 397.
Definition MATRIX_A : Z := 0x9908b0df.
Definition UPPER_MASK : Z := 0x80000000.
Definition LOWER_MASK : Z := 0x7fffffff.

Definition u32 (x : Z) : Z := Z.land x 0xffffffff.

Record state : Type := { mt : list Z; index : nat }.

Definition get (v : list Z) (i : nat) : Z := default 0 (v !! i).

(** [init_genrand(s)] *)
Definition init_genrand (s : Z) : list Z :=
  fold_left (fun v i =>
               let p := get v (i - 1) in
               v ++ [u32 (1812433253 * Z.lxor p (Z.shiftr p 30) + Z.of_nat i)])
            (seq 1 (N - 1)) [u32 s].

(** One round of a mixing loop of [init_by_array]; [i] wraps from [N]
    to [1], copying the last word to the front. *)
Definition wrap (v : list Z) (i : nat) : list Z * nat :=
  if (N <=? i)%nat then (<[0%nat := get v (N - 1)]> v, 1%nat) else (v, i).

Definition mix_key (key : list Z) (st : list Z * nat * nat) : list Z * nat * nat :=
  let '(v, i, j) := st in
  let p := get v (i - 1) in
  let x := u32 (Z.lxor (get v i) (Z.lxor p (Z.shiftr p 30) * 1664525)
                + get key j + Z.of_nat j) in
  let '(v, i) := wrap (<[i := x]> v) (S i) in
  (v, i, if (length key <=? S j)%nat then 0%nat else S j).

Definition mix_index (st : list Z * nat) : list Z * nat :=
  let '(v, i) := st in
  let p := get v (i - 1) in
  let x := u32 (Z.lxor (get v i) (Z.lxor p (Z.shiftr p 30) * 1566083941)
                - Z.of_nat i) in
  wrap (<[i := x]> v) (S i).

(** [init_by_array(key)] *)
Definition init_by_array (key : list Z) : state :=
  let v := init_genrand 19650218 in
  let '(v, i, _) := Nat.iter (Nat.max N (length key)) (mix_key key) (v, 1%nat, 0%nat) in
  let '(v, _) := Nat.iter (N - 1) mix_index (v, i) in
  {| mt := <[0%nat := 0x80000000]> v; index := N |}.

(** The 32-bit words of a non-negative integer, lowest first; one word
    for zero. *)
Fixpoint words (fuel : nat) (n : Z) : list Z :=
  match fuel with
  | O => []
  | S fuel' =>
      if n <? 0x100000000 then [n]
      else u32 n :: words fuel' (Z.shiftr n 32)
  end.

(** [random.seed(a)] for an integer [a] *)
Definition seed (a : Z) : state :=
  let n := Z.abs a in
  init_by_array (words (S (Z.to_nat (Z.log2 n))) n).

Definition twist_word (v : list Z) (kk next from : nat) : list Z :=
  let y := Z.lor (Z.land (get v kk) UPPER_MASK) (Z.land (get v next) LOWER_MASK) in
  <[kk := Z.lxor (Z.lxor (get v from) (Z.shiftr y 1))
                 (if Z.testbit y 0 then MATRIX_A else 0)]> v.

(** The regeneration of the [N] words. *)
Definition twist (v : list Z) : list Z :=
  let v := fold_left (fun v kk => twist_word v kk (S kk) (kk + M)) (seq 0 (N - M)) v in
  let v := fold_left (fun v kk => twist_word v kk (S kk) (kk + M - N)) (seq (N - M) (M - 1)) v in
  twist_word v (N - 1) 0 (M - 1).

(** [genrand_uint32] *)
Definition genrand_uint32 (s : state) : Z * state :=
  let '(v, i) := if (N <=? index s)%nat then (twist (mt s), 0%nat) else (mt s, index s) in
  let y := get v i in
  let y := Z.lxor y (Z.shiftr y 11) in
  let y := Z.lxor y (Z.land (Z.shiftl y 7) 0x9d2c5680) in
  let y := Z.lxor y (Z.land (Z.shiftl y 15) 0xefc60000) in
  let y := Z.lxor y (Z.shiftr y 18) in
  (y, {| mt := v; index := S i |}).

(** [getrandbits(k)] for [0 < k <= 32] *)
Definition getrandbits (k : Z) (s : state) : Z * state :=
  let '(y, s') := genrand_uint32 s in (Z.shiftr y (32 - k), s').

(** [n.bit_length()] for [n > 0] *)
Definition bit_length (n : Z) : Z := Z.log2 n + 1.

(** The loop [while r >= n: r = getrandbits(k)] of
    [_randbelow_with_getrandbits], cut after [fuel] draws; a draw is
    rejected with probability below one half.  When the fuel runs out
    the answer is [n], which is not a value of [range(n)]. *)
Fixpoint randbelow_loop (fuel : nat) (n k : Z) (s : state) : Z * state :=
  match fuel with
  | O => (n, s)
  | S fuel' =>
      let '(r, s') := getrandbits k s in
      if n <=? r then randbelow_loop fuel' n k s' else (r, s')
  end.

Definition randbelow (n : Z) (s : state) : Z * state :=
  randbelow_loop 256 n (bit_length n) s.

End Mt.

Definition MtGen : RandomGen :=
  {| rng_state := Mt.state; seed_rng := Mt.seed; randbelow := Mt.randbelow |}.

Module Lcg.

Definition next (s : Z) : Z := (1103515245 * s + 12345) mod 2147483648.

Definition randbelow (n : Z) (s : Z) : Z * Z := (next s mod n, next s).

End Lcg.

Definition LcgGen : RandomGen :=
  {| rng_state := Z; seed_rng := fun a => a; randbelow := Lcg.randbelow |}.

(** * Properties *)

(** ** The Fibonacci numbers, as the claim words them *)

Fixpoint fib_spec (n : nat) : Z :=
  match n with
  | O => 0
  | S m => match m with
           | O => 1
           | S p => fib_spec p + fib_spec m
           end
  end.

(** The first [n] Fibonacci numbers. *)
Definition first_fibs (n : nat) : list Z := map fib_spec (seq 0 n).

(** ** Vocabulary of the statements *)

Definition date_of (d : datetime) : Z * Z * Z := (year d, month d, day d).

Definition is_brace (a : ascii) : bool := Ascii.eqb a "{" || Ascii.eqb a "}".

(** No brace occurs in the text. *)
Definition brace_free (s : string) : bool := forallb_str (fun a => negb (is_brace a)) s.

Definition brace_free_val (v : pyval) : bool :=
  match v with
  | VStr s => brace_free s
  | _ => true
  end.

Definition ident_char (a : ascii) : bool := is_alpha a || is_digit a || Ascii.eqb a "_".

(** The text starts with the rest of a marker: identifier characters, at
    least one once [seen] is set, and the closing brace. *)
Fixpoint marker_rest (seen : bool) (s : string) : bool :=
  match s with
  | EmptyString => false
  | String a s' =>
      if Ascii.eqb a "}" then seen
      else if ident_char a then marker_rest true s'
      else false
  end.

(** A placeholder marker [{NAME}] occurs in the text. *)
Fixpoint has_marker (s : string) : bool :=
  match s with
  | EmptyString => false
  | String a s' => (Ascii.eqb a "{" && marker_rest false s') || has_marker s'
  end.

Definition newline_free (s : string) : bool :=
  forallb_str (fun a => negb (Ascii.eqb a nl_char)) s.

(** One line of a text file: no newline but the one that ends it. *)
Definition one_line (l : string) : Prop :=
  exists content, l = content +:+ nl /\ newline_free content = true.

(** [old] is the beginning of [new]. *)
Definition prefix_of (old new : string) : Prop := exists rest, new = old +:+ rest.

(** Every row is as long as the first one. *)
Definition rectangular (g : list (list Z)) : bool :=
  forallb (fun row => (length row =? length (hd [] g))%nat) g.

(** The digits and the sign of a decimal numeral. *)
Definition numeral_char (a : ascii) : bool := is_digit a || Ascii.eqb a "-".

(** The literal text of a format string holds no brace and none of its
    fields is positional. *)
Definition plain_pieces (ps : list Fmt.piece) : bool :=
  forallb (fun p => match p with
                    | Fmt.Text a => negb (is_brace a)
                    | Fmt.Field n => negb (forallb_str is_digit n)
                    end) ps.

(** The mapping supplies a value for each placeholder of the format string. *)
Definition supplies (kw : gmap string pyval) (s : string) : Prop :=
  forall n, In n (Fmt.fields s) -> is_Some (kw !! n).

(** What a rendered text is made of: text that the template or the header
    gives, and the text of the value that stands where a placeholder
    stood. *)
Inductive part : Type :=
| Lit (s : string)
| Val (n : string) (v : pyval).

Definition part_text (p : part) : string :=
  match p with
  | Lit s => s
  | Val _ v => Fmt.str_val v
  end.

(** The text that the parts make, one after the other. *)
Definition assembled (parts : list part) : string :=
  foldr (fun p rest => part_text p +:+ rest) EmptyString parts.

(** The placeholders that the parts resolve, in their order. *)
Definition placeholders (parts : list part) : list string :=
  omap (fun p => match p with Val n _ => Some n | Lit _ => None end) parts.

(** The part leaves no placeholder: given text holds no brace, and a
    value is the one that the mapping has for the placeholder. *)
Definition resolved (kw : gmap string pyval) (p : part) : Prop :=
  match p with
  | Lit s => brace_free s = true
  | Val n v => kw !! n = Some v
  end.

(** The character does not occur in the text. *)
Definition lacks (b : ascii) (s : string) : bool :=
  forallb_str (fun a => negb (Ascii.eqb a b)) s.

(** The pieces after the newlines that a format string starts with. *)
Fixpoint after_newlines (ps : list Fmt.piece) : list Fmt.piece :=
  match ps with
  | Fmt.Text a :: ps' => if Ascii.eqb a nl_char then after_newlines ps' else ps
  | _ => ps
  end.

(** The leading newlines of the format string are followed by text of
    its own, not by a field. *)
Definition text_first (ps : list Fmt.piece) : bool :=
  match after_newlines ps with
  | Fmt.Field _ :: _ => false
  | _ => true
  end.

(** A computation that draws from the generator returns in every state. *)
Definition total `{G : RandomGen} {A} (c : Rand A) : Prop :=
  forall s, exists a s', c s = Ok (a, s').

(** What is read off a literal of the registry: its code is a well-formed
    format string without escaped braces or positional fields, its title
    and description hold no brace, its name and description no newline,
    and its name is its own slug. *)
Definition registry_check `{G : RandomGen} (t : template) : bool :=
  Fmt.well_formed (Textwrap.dedent (code t)) &&
  plain_pieces (fst (Fmt.parse Fmt.InText (Textwrap.dedent (code t)))) &&
  brace_free (title (replace_char "_" " " (name t))) &&
  brace_free (desc t) &&
  newline_free (name t) && newline_free (desc t) &&
  String.eqb (slugify (name t)) (name t).

(** The world after [k] more reads of the clock. *)
Definition ticked (k : nat) (w : world) : world :=
  {| files := files w; now_calls := k + now_calls w; stdout := stdout w |}.

(** The file tree that [ensure_index] leaves. *)
Definition ensured (ROOT : list string) (fs : gmap (list string) string)
  : gmap (list string) string :=
  let keep := (OUT_DIR ROOT / ".gitkeep")%list in
  let fs1 := match fs !! keep with Some _ => fs | None => <[keep := EmptyString]> fs end in
  match fs1 !! index_path ROOT with
  | Some _ => fs1
  | None => <[index_path ROOT := index_header]> fs1
  end.

(** The file names that the [while] loop of [main] tries, in order: the
    base name, then the versions 2, 3, ... *)
Definition candidate_name (date_str slug : string) (j : nat) : string :=
  match j with
  | O => date_str +:+ "_" +:+ slug +:+ ".py"
  | S _ => versioned_name date_str slug (Z.of_nat j + 1)
  end.

Definition candidate (year_dir : list string) (date_str slug : string) (j : nat)
  : list string :=
  (year_dir / candidate_name date_str slug j)%list.

(** The template and the parameters that [main] arrives at from a seed. *)
Definition selected `{G : RandomGen} (seed : Z) : result (template * gmap string pyval) :=
  bindR (pick_template (seed_rng seed)) (fun picked =>
  bindR (params (fst picked) (snd picked)) (fun drawn =>
  Ok (fst picked, fst drawn))).

(** The index line as the specification words it, with an em dash between
    the link and the description. *)
Definition spec_index_line (now rel title desc : string) : string :=
  "- " +:+ now +:+ ": [" +:+ title +:+ "](" +:+ rel +:+ ") " +:+
  em_dash +:+ " " +:+ desc +:+ nl.

(** A template that is not of the registry: its code refers to a
    placeholder that its parameter generator does not supply. *)
Definition mismatched_template `{G : RandomGen} : template :=
  {| name := "mismatch";
     desc := "A template whose generator forgets a placeholder.";
     code := "X = {X}" +:+ nl +:+ "Y = {Y}" +:+ nl;
     params := retR {[ "X" := VInt 1 ]} |}.

(** Concrete inputs: a checkout, two readings of the clock on the 4th of
    January 2024, an empty file tree, and the grid that the date leads
    to. *)
Definition example_root : list string := ["repo"; ".github"; "workflows"]%string.

Definition jan4_morning : datetime :=
  {| year := 2024; month := 1; day := 4; hour := 6; minute := 5; second := 9 |}.

Definition jan4_evening : datetime :=
  {| year := 2024; month := 1; day := 4; hour := 21; minute := 40; second := 0 |}.

Definition empty_world : world := {| files := ∅; now_calls := 0; stdout := [] |}.

Definition jagged_grid : list (list Z) :=
  [ [6; 1; 7; 1; 3; 9]; [1; 3; 7; 3; 9]; [8; 8; 2; 4]; [3; 9; 8; 5];
    [9; 5; 6; 3; 2; 9]; [8; 2; 5; 6; 1; 7] ].

(** Every character is of [a-z0-9_]: the text is its own slug and is safe
    in a file name. *)
Definition slug_safe (s : string) : bool := forallb_str slug_char s.

(** A prime number: at least 2 and without a divisor between 2 and
    itself. *)
Definition is_prime (m : Z) : Prop :=
  2 <= m /\ forall d, 2 <= d < m -> ~ (d | m).

(** The cells of the sieve while the outer loop is at [p]: a cell is still
    set when its index is at least 2 and has no proper divisor below
    [p]. *)
Definition sieved (limit p : Z) (sieve : list bool) : Prop :=
  length sieve = Z.to_nat (limit + 1) /\
  forall m, 0 <= m <= limit ->
    (sieve !! Z.to_nat m = Some true <->
     2 <= m /\ forall d, 2 <= d < p -> (d | m) -> d = m).

(** The edit distance by its recurrence (Wagner and Fischer), on texts
    given last character first: a text against the empty text costs its
    length; otherwise the cheapest of an insertion, a deletion and a
    substitution, which is free when the two last characters agree. *)
Fixpoint edit_distance (ra : list ascii) : list ascii -> Z :=
  match ra with
  | [] => fun rb => Z.of_nat (length rb)
  | x :: ra' =>
      fix against (rb : list ascii) : Z :=
        match rb with
        | [] => Z.of_nat (S (length ra'))
        | y :: rb' =>
            Z.min (Z.min (against rb' + 1) (edit_distance ra' rb + 1))
                  (edit_distance ra' rb' + Generated.differ x y)
        end
  end.

(** The row of the table for a prefix of [a], given last character first:
    its distances to the prefixes of [b]. *)
Definition distance_row (ra b : list ascii) : list Z :=
  map (fun k => edit_distance ra (rev (take k b))) (seq 0 (S (length b))).

(** A table of [R] rows of [C] cells each. *)
Definition shaped {A} (R C : nat) (table : list (list A)) : Prop :=
  length table = R /\ Forall (fun row => length row = C) table.

(** An entry of the queue of [dijkstra] names a cell of the grid. *)
Definition in_grid (R C : nat) (entry : Z * Z * Z) : Prop :=
  0 <= entry.1.2 < Z.of_nat R /\ 0 <= entry.2 < Z.of_nat C.

(** ** Indexing from the end *)

Lemma py_index_last {A} (l : list A) (x : A) : py_index (l ++ [x]) (-1) = Ok x.
Proof.
  unfold py_index. rewrite length_app. cbn [length].
  replace (-1 <? 0) with true by reflexivity.
  replace (-1 + Z.of_nat (length l + 1)) with (Z.of_nat (length l)) by lia.
  rewrite Nat2Z.id.
  destruct (Z.leb_spec 0 (Z.of_nat (length l))); [|lia].
  destruct (Z.ltb_spec (Z.of_nat (length l)) (Z.of_nat (length l + 1))); [|lia].
  cbn [andb]. rewrite lookup_app_r by lia. by rewrite Nat.sub_diag.
Qed.

Lemma py_index_last_but_one {A} (l : list A) (y x : A) :
  py_index (l ++ [y; x]) (-2) = Ok y.
Proof.
  unfold py_index. rewrite length_app. cbn [length].
  replace (-2 <? 0) with true by reflexivity.
  replace (-2 + Z.of_nat (length l + 2)) with (Z.of_nat (length l)) by lia.
  rewrite Nat2Z.id.
  destruct (Z.leb_spec 0 (Z.of_nat (length l))); [|lia].
  destruct (Z.ltb_spec (Z.of_nat (length l)) (Z.of_nat (length l + 2))); [|lia].
  cbn [andb]. rewrite lookup_app_r by lia. by rewrite Nat.sub_diag.
Qed.

Lemma first_fibs_S (n : nat) : first_fibs (S n) = first_fibs n ++ [fib_spec n].
Proof. unfold first_fibs. by rewrite seq_S, map_app. Qed.

(** The loop keeps [seq] equal to a prefix of the Fibonacci sequence. *)
Lemma fibonacci_loop_spec (rounds k : nat) :
  Generated.fibonacci_loop rounds (first_fibs (2 + k)) = Ok (first_fibs (2 + k + rounds)).
Proof.
  revert k. induction rounds as [|rounds IH]; intros k.
  - cbn [Generated.fibonacci_loop]. by rewrite Nat.add_0_r.
  - cbn [Generated.fibonacci_loop].
    rewrite (first_fibs_S (S k)) at 1. rewrite py_index_last. cbn [bindR].
    replace (2 + k)%nat with (S (S k)) by lia.
    rewrite (first_fibs_S (S k)), (first_fibs_S k), <- app_assoc. cbn [app].
    rewrite py_index_last_but_one. cbn [bindR].
    replace (first_fibs k ++ [fib_spec k; fib_spec (S k)])
      with (first_fibs (2 + k)).
    2:{ cbn [Nat.add]. rewrite (first_fibs_S (S k)), (first_fibs_S k), <- app_assoc. done. }
    replace (fib_spec (S k) + fib_spec k) with (fib_spec (2 + k)).
    2:{ cbn [Nat.add fib_spec]. lia. }
    rewrite <- first_fibs_S.
    replace (S (2 + k)) with (2 + S k)%nat by lia.
    rewrite IH. f_equal. f_equal. lia.
Qed.

(** C6: [fibonacci] of the template [fibonacci_iterative] returns the empty
    list for [n <= 0], [[0]] for [n = 1], the first [n] Fibonacci numbers
    for every [n >= 1], and for [12] the list 0, 1, 1, 2, 3, 5, 8, 13, 21,
    34, 55, 89. *)
Theorem fibonacci_first_n :
  (forall n, n <= 0 -> Generated.fibonacci n = Ok []) /\
  Generated.fibonacci 1 = Ok [0] /\
  (forall n, 1 <= n -> Generated.fibonacci n = Ok (first_fibs (Z.to_nat n))) /\
  Generated.fibonacci 12 = Ok [0; 1; 1; 2; 3; 5; 8; 13; 21; 34; 55; 89].
Proof.
  split; [|split; [|split]].
  - intros n Hn. unfold Generated.fibonacci.
    destruct (Z.leb_spec n 0); [done | lia].
  - reflexivity.
  - intros n Hn. unfold Generated.fibonacci.
    destruct (Z.leb_spec n 0); [lia|].
    destruct (Z.eqb_spec n 1) as [-> | Hne]; [reflexivity|].
    change [0; 1] with (first_fibs (2 + 0)).
    rewrite fibonacci_loop_spec. f_equal. f_equal. lia.
  - reflexivity.
Qed.

Lemma fibonacci_first_n_witness :
  Generated.fibonacci (-3) = Ok [] /\
  Generated.fibonacci 7 = Ok (first_fibs 7).
Proof.
  split.
  - apply (proj1 fibonacci_first_n (-3)). lia.
  - apply (proj1 (proj2 (proj2 fibonacci_first_n)) 7). lia.
Defined.

(** ** Strings *)

Lemma append_nil_l (t : string) : EmptyString +:+ t = t.
Proof. reflexivity. Qed.

Lemma append_cons (a : ascii) (s t : string) : String a s +:+ t = String a (s +:+ t).
Proof. reflexivity. Qed.

Lemma append_nil_r (s : string) : s +:+ EmptyString = s.
Proof. induction s as [|a s IH]; [done|]. by rewrite append_cons, IH. Qed.

Lemma append_assoc (a b c : string) : (a +:+ b) +:+ c = a +:+ b +:+ c.
Proof. induction a as [|x a IH]; [done|]. by rewrite !append_cons, IH. Qed.

Lemma length_append (a b : string) :
  String.length (a +:+ b) = (String.length a + String.length b)%nat.
Proof. induction a as [|x a IH]; [done|]. rewrite append_cons. cbn. by rewrite IH. Qed.

Lemma append_inj_r (a b c : string) : a +:+ c = b +:+ c -> a = b.
Proof.
  revert b. induction a as [|x a IH]; intros [|y b] H.
  - done.
  - apply (f_equal String.length) in H. rewrite !length_append in H. cbn in H. lia.
  - apply (f_equal String.length) in H. rewrite !length_append in H. cbn in H. lia.
  - rewrite !append_cons in H. injection H as -> H. f_equal. by apply IH.
Qed.

Lemma append_inj_l (a b c : string) : a +:+ b = a +:+ c -> b = c.
Proof.
  induction a as [|x a IH]; intros H; [done|].
  rewrite !append_cons in H. injection H as H. auto.
Qed.

Lemma forallb_str_app (p : ascii -> bool) (a b : string) :
  forallb_str p (a +:+ b) = forallb_str p a && forallb_str p b.
Proof.
  induction a as [|x a IH]; [done|]. rewrite append_cons. cbn.
  rewrite IH. by rewrite andb_assoc.
Qed.

Lemma forallb_str_mono (p q : ascii -> bool) (s : string) :
  (forall a, p a = true -> q a = true) ->
  forallb_str p s = true -> forallb_str q s = true.
Proof.
  intros Hpq. induction s as [|x s IH]; cbn; [done|].
  intros [Hx Hs]%andb_prop. rewrite (Hpq _ Hx). cbn. auto.
Qed.

Lemma forallb_str_join (p : ascii -> bool) (sep : string) (parts : list string) :
  forallb_str p sep = true ->
  Forall (fun s => forallb_str p s = true) parts ->
  forallb_str p (join sep parts) = true.
Proof.
  intros Hsep. induction 1 as [|s parts Hs Hparts IH]; [done|].
  destruct parts as [|s' parts]; [done|].
  change (join sep (s :: s' :: parts)) with (s +:+ sep +:+ join sep (s' :: parts)).
  rewrite !forallb_str_app, Hs, Hsep, IH. done.
Qed.

Lemma forallb_str_lstrip (p : ascii -> bool) (c : ascii) (s : string) :
  forallb_str p s = true -> forallb_str p (lstrip c s) = true.
Proof.
  induction s as [|x s IH]; cbn; [done|].
  intros [Hx Hs]%andb_prop. destruct (Ascii.eqb x c); [auto|].
  cbn. by rewrite Hx, Hs.
Qed.

(** ** Decimal numerals: [str] of an integer *)

Lemma pretty_N_char_numeral (k : N) : numeral_char (pretty_N_char k) = true.
Proof. destruct k as [|p]; [done|]. do 4 (destruct p as [p|p|]; try done). Qed.

Lemma pretty_N_go_chars (p : ascii -> bool) (x : N) (s : string) :
  (forall k, p (pretty_N_char k) = true) ->
  forallb_str p (pretty_N_go x s) = forallb_str p s.
Proof.
  intros Hp. revert s. induction (N.lt_wf_0 x) as [x _ IH]; intros s.
  destruct (decide (x = 0%N)) as [->|Hx]; [done|].
  rewrite pretty_N_go_step by lia.
  rewrite IH by (apply N.div_lt; lia). cbn. by rewrite Hp.
Qed.

Lemma pretty_N_go_app (x : N) (s t : string) :
  pretty_N_go x s +:+ t = pretty_N_go x (s +:+ t).
Proof.
  revert s. induction (N.lt_wf_0 x) as [x _ IH]; intros s.
  destruct (decide (x = 0%N)) as [->|Hx]; [done|].
  rewrite (pretty_N_go_step x s), (pretty_N_go_step x (s +:+ t)) by lia.
  by rewrite IH by (apply N.div_lt; lia).
Qed.

Lemma pretty_N_numeral (x : N) : forallb_str numeral_char (pretty x) = true.
Proof.
  unfold pretty, pretty_N. case_decide; [done|].
  by rewrite pretty_N_go_chars by apply pretty_N_char_numeral.
Qed.

Lemma pretty_Z_numeral (z : Z) : forallb_str numeral_char (pretty z) = true.
Proof.
  destruct z as [|p|p]; [done| apply pretty_N_numeral |].
  change (pretty (Z.neg p)) with ("-" +:+ pretty (N.pos p)).
  rewrite forallb_str_app. by rewrite pretty_N_numeral.
Qed.

Lemma pad2_numeral (n : Z) : forallb_str numeral_char (Strftime.pad2 n) = true.
Proof.
  unfold Strftime.pad2. destruct (n <? 10).
  - rewrite forallb_str_app. by rewrite pretty_Z_numeral.
  - apply pretty_Z_numeral.
Qed.

Lemma numeral_char_not (c : ascii) (a : ascii) :
  numeral_char c = false -> numeral_char a = true -> negb (Ascii.eqb a c) = true.
Proof.
  intros Hc Ha. destruct (Ascii.eqb_spec a c) as [->|]; [congruence | done].
Qed.

(** ** The seed of a date *)

Lemma pretty_N_char_digit (k : N) :
  (k < 10)%N ->
  is_digit (pretty_N_char k) = true /\ Z.of_N (ord (pretty_N_char k) - 48) = Z.of_N k.
Proof.
  intros Hk. destruct k as [|p]; [done|].
  do 4 (destruct p as [p|p|]; try done); lia.
Qed.

Lemma int_from_digit (acc : Z) (k : N) (s : string) :
  (k < 10)%N ->
  int_from acc (String (pretty_N_char k) s) = int_from (10 * acc + Z.of_N k) s.
Proof.
  intros Hk. destruct (pretty_N_char_digit k Hk) as [Hd Hv].
  cbn [int_from]. by rewrite Hd, Hv.
Qed.

Lemma int_from_pretty_N_go (x : N) (s : string) :
  int_from 0 (pretty_N_go x s) = int_from (Z.of_N x) s.
Proof.
  revert s. induction (N.lt_wf_0 x) as [x _ IH]; intros s.
  destruct (decide (x = 0%N)) as [->|Hx]; [done|].
  rewrite pretty_N_go_step by lia.
  rewrite IH by (apply N.div_lt; lia).
  rewrite int_from_digit by (apply N.mod_lt; lia).
  f_equal. rewrite (N.div_mod x 10) at 3 by lia. lia.
Qed.

Lemma pretty_Z_nonneg (n : Z) : 0 <= n -> pretty n = pretty (Z.to_N n).
Proof. intros Hn. destruct n as [|p|p]; [done | done | lia]. Qed.

Lemma pretty_N_two_digits (x : N) :
  (10 <= x < 100)%N ->
  pretty x = String (pretty_N_char (x / 10)) (String (pretty_N_char (x mod 10)) EmptyString).
Proof.
  intros Hx. unfold pretty, pretty_N. case_decide; [lia|].
  rewrite pretty_N_go_step by lia.
  rewrite pretty_N_go_step by (apply N.div_str_pos; lia).
  rewrite (N.div_small (x / 10) 10) by (apply N.Div0.div_lt_upper_bound; lia).
  rewrite (N.mod_small (x / 10) 10) by (apply N.Div0.div_lt_upper_bound; lia).
  done.
Qed.

Lemma pretty_N_one_digit (x : N) :
  (x < 10)%N -> pretty x = String (pretty_N_char x) EmptyString.
Proof.
  intros Hx. unfold pretty, pretty_N. case_decide as H0; [by subst|].
  rewrite pretty_N_go_step by lia.
  rewrite (N.div_small x 10), (N.mod_small x 10) by lia. done.
Qed.

(** [%m] and its like print exactly two digits. *)
Lemma pad2_digits (n : Z) :
  0 <= n <= 99 ->
  Strftime.pad2 n =
    String (pretty_N_char (Z.to_N n / 10))
      (String (pretty_N_char (Z.to_N n mod 10)) EmptyString).
Proof.
  intros Hn. unfold Strftime.pad2. rewrite pretty_Z_nonneg by lia.
  destruct (Z.ltb_spec n 10).
  - rewrite pretty_N_one_digit by lia.
    rewrite (N.div_small (Z.to_N n) 10), (N.mod_small (Z.to_N n) 10) by lia. done.
  - apply pretty_N_two_digits. lia.
Qed.

Lemma int_from_pad2 (acc n : Z) (s : string) :
  0 <= n <= 99 ->
  int_from acc (Strftime.pad2 n +:+ s) = int_from (100 * acc + n) s.
Proof.
  intros Hn. rewrite pad2_digits by done.
  rewrite !append_cons, append_nil_l.
  assert (Z.to_N n / 10 < 10)%N by (apply N.Div0.div_lt_upper_bound; lia).
  assert (Z.to_N n mod 10 < 10)%N by (apply N.mod_lt; lia).
  rewrite !int_from_digit by done. f_equal.
  pose proof (N.div_mod (Z.to_N n) 10 ltac:(lia)). lia.
Qed.

Lemma int_nonempty (a : string) (c : ascii) (b : string) :
  int (a +:+ String c b) = int_from 0 (a +:+ String c b).
Proof. destruct a; reflexivity. Qed.

(** The seed of a date is the number whose decimal digits are YYYYMMDD. *)
Lemma today_seed_value (d : datetime) :
  datetime_ok d ->
  today_seed d = Ok (year d * 10000 + month d * 100 + day d).
Proof.
  intros (Hy & Hm & Hd & _). unfold today_seed, Strftime.Ymd, Strftime.pY.
  rewrite (pad2_digits (day d)) by lia.
  rewrite <- append_assoc, int_nonempty.
  rewrite (append_assoc (pretty (year d))).
  rewrite <- (pad2_digits (day d)) by lia.
  rewrite pretty_Z_nonneg by lia. unfold pretty at 1, pretty_N.
  case_decide; [lia|].
  rewrite pretty_N_go_app, append_nil_l, int_from_pretty_N_go.
  rewrite int_from_pad2 by lia.
  rewrite <- (append_nil_r (Strftime.pad2 (day d))), int_from_pad2 by lia.
  cbn [int_from]. f_equal. lia.
Qed.

(** The seed depends on the date alone. *)
Lemma today_seed_same_date (d1 d2 : datetime) :
  date_of d1 = date_of d2 -> today_seed d1 = today_seed d2.
Proof.
  unfold date_of. intros [= Hy Hm Hd].
  unfold today_seed, Strftime.Ymd, Strftime.pY. by rewrite Hy, Hm, Hd.
Qed.

(** ** [str.format] *)

Lemma not_brace_of_numeral (a : ascii) :
  numeral_char a = true -> negb (is_brace a) = true.
Proof.
  intros Ha. unfold is_brace.
  destruct (Ascii.eqb_spec a "{") as [->|]; [done|].
  destruct (Ascii.eqb_spec a "}") as [->|]; done.
Qed.

Lemma not_newline_of_numeral (a : ascii) :
  numeral_char a = true -> negb (Ascii.eqb a nl_char) = true.
Proof. intros Ha. destruct (Ascii.eqb_spec a nl_char) as [->|]; done. Qed.

Lemma pretty_brace_free (z : Z) : brace_free (pretty z) = true.
Proof.
  eapply forallb_str_mono; [apply not_brace_of_numeral | apply pretty_Z_numeral].
Qed.

Lemma str_list_brace_free (l : list Z) : brace_free (Fmt.str_list l) = true.
Proof.
  unfold Fmt.str_list, brace_free. rewrite !forallb_str_app.
  rewrite forallb_str_join; [done | done |].
  apply List.Forall_forall. intros s (z & <- & _)%in_map_iff. apply pretty_brace_free.
Qed.

Lemma str_val_brace_free (v : pyval) :
  brace_free_val v = true -> brace_free (Fmt.str_val v) = true.
Proof.
  destruct v as [z | s | l | g]; cbn [brace_free_val Fmt.str_val]; intros Hv.
  - apply pretty_brace_free.
  - done.
  - apply str_list_brace_free.
  - unfold brace_free. rewrite !forallb_str_app.
    rewrite forallb_str_join; [done | done |].
    apply List.Forall_forall. intros s (l & <- & _)%in_map_iff. apply str_list_brace_free.
Qed.

Lemma in_fields_pieces (n : string) (ps : list Fmt.piece) :
  In n (omap (fun p => match p with Fmt.Field n => Some n | Fmt.Text _ => None end) ps)
  <-> In (Fmt.Field n) ps.
Proof.
  rewrite <- !list_elem_of_In, list_elem_of_omap. split.
  - intros ([a | m] & Hin & Heq); [done|]. by injection Heq as ->.
  - intros Hin. by exists (Fmt.Field n).
Qed.

(** Rendering succeeds when every field is a keyword that is supplied. *)
Lemma render_supplied (ps : list Fmt.piece) (kw : gmap string pyval) :
  plain_pieces ps = true ->
  (forall n, In (Fmt.Field n) ps -> is_Some (kw !! n)) ->
  exists out, Fmt.render ps kw = Ok out /\
    ((forall n v, In (Fmt.Field n) ps -> kw !! n = Some v -> brace_free_val v = true) ->
     brace_free out = true).
Proof.
  induction ps as [|[a | n] ps IH]; intros Hplain Hsup.
  - by exists EmptyString.
  - cbn in Hplain. apply andb_prop in Hplain as [Ha Hplain].
    destruct IH as (out & Hout & Hfree); [done | |].
    { intros n Hn. apply Hsup. by right. }
    exists (String a out). cbn [Fmt.render]. rewrite Hout. split; [done|].
    intros Hvals. cbn. rewrite Ha. apply Hfree.
    intros n v Hn. apply Hvals. by right.
  - cbn in Hplain. apply andb_prop in Hplain as [Hn Hplain].
    destruct IH as (out & Hout & Hfree); [done | |].
    { intros m Hm. apply Hsup. by right. }
    destruct (Hsup n) as [v Hv]; [by left|].
    exists (Fmt.str_val v +:+ out). cbn [Fmt.render]. unfold Fmt.lookup_field.
    apply negb_true_iff in Hn. rewrite Hn, Hv. cbn [bindR]. rewrite Hout. split; [done|].
    intros Hvals. unfold brace_free. rewrite forallb_str_app.
    fold (brace_free (Fmt.str_val v)). fold (brace_free out).
    rewrite str_val_brace_free by (apply (Hvals n); [by left | done]).
    apply Hfree. intros m u Hm. apply Hvals. by right.
Qed.

(** Rendering raises when a field has no entry. *)
Lemma render_missing (ps : list Fmt.piece) (kw : gmap string pyval) (n : string) :
  In (Fmt.Field n) ps -> kw !! n = None ->
  exists e, Fmt.render ps kw = Raise e /\ (e = IndexError \/ exists m, e = KeyError m /\ kw !! m = None).
Proof.
  induction ps as [|[a | m] ps IH]; intros Hin Hnone; [done | |].
  - destruct Hin as [? | Hin]; [done|].
    destruct (IH Hin Hnone) as (e & He & Hkind).
    exists e. cbn [Fmt.render]. by rewrite He.
  - cbn [Fmt.render]. unfold Fmt.lookup_field.
    destruct (forallb_str is_digit m) eqn:Hdigits.
    { exists IndexError. split; [done | by left]. }
    destruct (kw !! m) as [v|] eqn:Hm.
    + destruct Hin as [[= ->] | Hin]; [congruence|].
      destruct (IH Hin Hnone) as (e & He & Hkind).
      exists e. cbn [bindR]. by rewrite He.
    + exists (KeyError m). split; [done|]. right. by exists m.
Qed.

Lemma format_supplied (s : string) (kw : gmap string pyval) :
  Fmt.well_formed s = true ->
  plain_pieces (fst (Fmt.parse Fmt.InText s)) = true ->
  supplies kw s ->
  exists out, Fmt.format s kw = Ok out /\
    ((forall n v, In n (Fmt.fields s) -> kw !! n = Some v -> brace_free_val v = true) ->
     brace_free out = true).
Proof.
  unfold Fmt.well_formed, Fmt.format, supplies, Fmt.fields.
  destruct (Fmt.parse Fmt.InText s) as [ps [e|]]; [done|]. cbn [fst snd].
  intros _ Hplain Hsup.
  destruct (render_supplied ps kw Hplain) as (out & Hout & Hfree).
  { intros n Hn. apply Hsup. by apply in_fields_pieces. }
  exists out. rewrite Hout. split; [done|].
  intros Hvals. apply Hfree. intros n v Hn. apply Hvals. by apply in_fields_pieces.
Qed.

Lemma format_missing (s : string) (kw : gmap string pyval) (n : string) :
  In n (Fmt.fields s) -> kw !! n = None ->
  exists e, Fmt.format s kw = Raise e /\ (e = IndexError \/ exists m, e = KeyError m /\ kw !! m = None).
Proof.
  unfold Fmt.format, Fmt.fields. destruct (Fmt.parse Fmt.InText s) as [ps err]. cbn [fst].
  intros Hin%in_fields_pieces Hnone.
  destruct (render_missing ps kw n Hin Hnone) as (e & He & Hkind).
  exists e. by rewrite He.
Qed.

Lemma has_marker_brace_free (s : string) : brace_free s = true -> has_marker s = false.
Proof.
  induction s as [|a s IH]; [done|]. cbn.
  intros [Ha Hs]%andb_prop. rewrite (IH Hs).
  unfold is_brace in Ha. destruct (Ascii.eqb a "{"); done.
Qed.

(** ** The parts of a rendered text *)

Lemma render_after_newlines (ps : list Fmt.piece) (kw : gmap string pyval) (out : string) :
  text_first ps = true ->
  Fmt.render ps kw = Ok out ->
  Fmt.render (after_newlines ps) kw = Ok (lstrip nl_char out).
Proof.
  revert out. induction ps as [|[a | n] ps IH]; intros out Hfirst Hout.
  - by injection Hout as <-.
  - cbn [Fmt.render] in Hout.
    destruct (Fmt.render ps kw) as [rest|e] eqn:Hrest; [|done].
    injection Hout as <-. unfold text_first in Hfirst. cbn [after_newlines lstrip] in *.
    destruct (Ascii.eqb a nl_char).
    + by apply IH.
    + cbn [Fmt.render]. by rewrite Hrest.
  - done.
Qed.

Lemma plain_after_newlines (ps : list Fmt.piece) :
  plain_pieces ps = true -> plain_pieces (after_newlines ps) = true.
Proof.
  induction ps as [|[a | n] ps IH]; [done| |done].
  intros Hplain. cbn [after_newlines]. destruct (Ascii.eqb a nl_char); [|done].
  cbn in Hplain. apply andb_prop in Hplain as [_ Hplain]. by apply IH.
Qed.

Lemma fields_after_newlines (ps : list Fmt.piece) :
  omap (fun p => match p with Fmt.Field n => Some n | Fmt.Text _ => None end) (after_newlines ps)
  = omap (fun p => match p with Fmt.Field n => Some n | Fmt.Text _ => None end) ps.
Proof.
  induction ps as [|[a | n] ps IH]; [done| |done].
  cbn [after_newlines]. destruct (Ascii.eqb a nl_char); [|done]. by rewrite IH.
Qed.

(** The text that [render] returns, part by part. *)
Lemma render_parts (ps : list Fmt.piece) (kw : gmap string pyval) (out : string) :
  plain_pieces ps = true ->
  Fmt.render ps kw = Ok out ->
  exists parts,
    out = assembled parts /\
    Forall (resolved kw) parts /\
    placeholders parts
      = omap (fun p => match p with Fmt.Field n => Some n | Fmt.Text _ => None end) ps.
Proof.
  revert out. induction ps as [|[a | n] ps IH]; intros out Hplain Hout.
  - injection Hout as <-. by exists [].
  - cbn [Fmt.render] in Hout.
    destruct (Fmt.render ps kw) as [rest|e] eqn:Hrest; [|done].
    injection Hout as <-. cbn in Hplain. apply andb_prop in Hplain as [Ha Hplain].
    destruct (IH rest Hplain eq_refl) as (parts & -> & Hres & Hnames).
    exists (Lit (String a EmptyString) :: parts). split; [done|]. split; [|done].
    constructor; [|done]. cbn. by rewrite Ha.
  - cbn [Fmt.render] in Hout. unfold Fmt.lookup_field in Hout.
    cbn in Hplain. apply andb_prop in Hplain as [Hn Hplain].
    apply negb_true_iff in Hn. rewrite Hn in Hout.
    destruct (kw !! n) as [v|] eqn:Hv; [|done]. cbn [bindR] in Hout.
    destruct (Fmt.render ps kw) as [rest|e] eqn:Hrest; [|done].
    injection Hout as <-.
    destruct (IH rest Hplain eq_refl) as (parts & -> & Hres & Hnames).
    exists (Val n v :: parts). split; [done|]. split; [by constructor|].
    cbn. by rewrite <- Hnames.
Qed.

Lemma lacks_brace_free (b : ascii) (s : string) :
  is_brace b = true -> brace_free s = true -> lacks b s = true.
Proof.
  intros Hb. apply forallb_str_mono. intros a Ha.
  destruct (Ascii.eqb_spec a b) as [->|]; [|done]. by rewrite Hb in Ha.
Qed.

Lemma assembled_lacks (b : ascii) (parts : list part) :
  Forall (fun p => lacks b (part_text p) = true) parts ->
  lacks b (assembled parts) = true.
Proof.
  induction 1 as [|p parts Hp _ IH]; [done|].
  cbn [assembled foldr]. unfold lacks in *. rewrite forallb_str_app, Hp. exact IH.
Qed.

Lemma marker_rest_lacks (seen : bool) (s : string) :
  lacks "}" s = true -> marker_rest seen s = false.
Proof.
  revert seen. induction s as [|a s IH]; intros seen; [done|]. cbn.
  intros [Ha Hs]%andb_prop. apply negb_true_iff in Ha. rewrite Ha.
  destruct (ident_char a); [by apply IH | done].
Qed.

(** A marker has both braces. *)
Lemma has_marker_lacks (b : ascii) (s : string) :
  is_brace b = true -> lacks b s = true -> has_marker s = false.
Proof.
  unfold is_brace. intros [->%Ascii.eqb_eq | ->%Ascii.eqb_eq]%orb_prop.
  - induction s as [|a s IH]; [done|]. cbn.
    intros [Ha Hs]%andb_prop. apply negb_true_iff in Ha. by rewrite Ha, (IH Hs).
  - induction s as [|a s IH]; [done|]. cbn.
    intros [Ha Hs]%andb_prop. rewrite (marker_rest_lacks false s Hs), (IH Hs).
    by rewrite andb_false_r.
Qed.

(** ** The placeholders of the registry *)

Lemma fields_fibonacci_iterative :
  Fmt.fields (Textwrap.dedent fibonacci_iterative_code) = ["N"; "N"]%string.
Proof. vm_compute. reflexivity. Qed.

Lemma fields_sieve_of_eratosthenes :
  Fmt.fields (Textwrap.dedent sieve_of_eratosthenes_code) = ["LIMIT"; "LIMIT"]%string.
Proof. vm_compute. reflexivity. Qed.

Lemma fields_merge_sort :
  Fmt.fields (Textwrap.dedent merge_sort_code) = ["DATA"]%string.
Proof. vm_compute. reflexivity. Qed.

Lemma fields_levenshtein_distance :
  Fmt.fields (Textwrap.dedent levenshtein_distance_code) = ["A"; "B"; "A"; "B"]%string.
Proof. vm_compute. reflexivity. Qed.

Lemma fields_dijkstra_on_grid :
  Fmt.fields (Textwrap.dedent dijkstra_on_grid_code) = ["GRID"]%string.
Proof. vm_compute. reflexivity. Qed.

Section RegistryFacts.
Context {G : RandomGen}.

Lemma registry_checked (t : template) : In t templates -> registry_check t = true.
Proof.
  intros [<- | [<- | [<- | [<- | [<- | []]]]]]; vm_compute; reflexivity.
Qed.

Lemma registry_text_first (t : template) :
  In t templates ->
  text_first (fst (Fmt.parse Fmt.InText (Textwrap.dedent (code t)))) = true.
Proof.
  intros [<- | [<- | [<- | [<- | [<- | []]]]]]; vm_compute; reflexivity.
Qed.

Lemma bindRand_ok {A B} (c : Rand A) (k : A -> Rand B) (s : rng_state) (r : B * rng_state) :
  bindRand c k s = Ok r -> exists a s1, c s = Ok (a, s1) /\ k a s1 = Ok r.
Proof.
  unfold bindRand. destruct (c s) as [[a s1] | e]; [|done]. intros H. by exists a, s1.
Qed.

(** Whatever the generator draws, the mapping of a template has an entry
    for each placeholder of its code. *)
Lemma params_supply (t : template) (s s' : rng_state) (kw : gmap string pyval) :
  In t templates -> params t s = Ok (kw, s') ->
  supplies kw (Textwrap.dedent (code t)).
Proof.
  unfold supplies.
  intros [<- | [<- | [<- | [<- | [<- | []]]]]];
    cbn [params code fibonacci_iterative sieve_of_eratosthenes merge_sort_template
         levenshtein_distance dijkstra_on_grid];
    intros (a & s1 & _ & Hk)%bindRand_ok.
  - injection Hk as <- _. rewrite fields_fibonacci_iterative.
    intros n [<- | [<- | []]]; by rewrite lookup_singleton_eq.
  - injection Hk as <- _. rewrite fields_sieve_of_eratosthenes.
    intros n [<- | [<- | []]]; by rewrite lookup_singleton_eq.
  - injection Hk as <- _. rewrite fields_merge_sort.
    intros n [<- | []]; by rewrite lookup_singleton_eq.
  - apply bindRand_ok in Hk as (b & s2 & _ & Hk).
    injection Hk as <- _. rewrite fields_levenshtein_distance.
    intros n [<- | [<- | [<- | [<- | []]]]]; by simplify_map_eq.
  - injection Hk as <- _. rewrite fields_dijkstra_on_grid.
    intros n [<- | []]; by rewrite lookup_singleton_eq.
Qed.

Lemma header_brace_free (t : template) (date_str : string) :
  brace_free (title (replace_char "_" " " (name t))) = true ->
  brace_free (desc t) = true ->
  brace_free date_str = true ->
  brace_free (header t date_str) = true.
Proof.
  intros Ht Hd Hdate. unfold header, brace_free in *.
  rewrite !forallb_str_app, Ht, Hd, Hdate. reflexivity.
Qed.

Lemma Y_m_d_numeral (d : datetime) : forallb_str numeral_char (Strftime.Y_m_d d) = true.
Proof.
  unfold Strftime.Y_m_d, Strftime.pY.
  rewrite !forallb_str_app, pretty_Z_numeral, !pad2_numeral. reflexivity.
Qed.

(** A template of the registry renders whenever its placeholders are
    supplied, and the text has no brace when no value has one. *)
Lemma rendered_supplied (t : template) (kw : gmap string pyval) (d : datetime) :
  In t templates ->
  supplies kw (Textwrap.dedent (code t)) ->
  exists text, rendered t kw (Strftime.Y_m_d d) = Ok text /\
    ((forall n v, In n (Fmt.fields (Textwrap.dedent (code t))) ->
                  kw !! n = Some v -> brace_free_val v = true) ->
     brace_free text = true).
Proof.
  intros Ht Hsup. pose proof (registry_checked t Ht) as Hc.
  unfold registry_check in Hc.
  repeat (apply andb_prop in Hc as [Hc ?]).
  destruct (format_supplied (Textwrap.dedent (code t)) kw) as (out & Hout & Hfree); [done..|].
  exists (header t (Strftime.Y_m_d d) +:+ lstrip nl_char out).
  unfold rendered, body. rewrite Hout. cbn [bindR]. split; [done|].
  intros Hvals. unfold brace_free. rewrite forallb_str_app.
  fold (brace_free (header t (Strftime.Y_m_d d))).
  rewrite header_brace_free; [|done|done|].
  2:{ eapply forallb_str_mono; [apply not_brace_of_numeral | apply Y_m_d_numeral]. }
  apply forallb_str_lstrip. by apply Hfree.
Qed.

(** A missing placeholder makes the rendering raise. *)
Lemma rendered_missing (t : template) (kw : gmap string pyval) (date_str n : string) :
  In n (Fmt.fields (Textwrap.dedent (code t))) -> kw !! n = None ->
  exists e, rendered t kw date_str = Raise e /\
    (e = IndexError \/ exists m, e = KeyError m /\ kw !! m = None).
Proof.
  intros Hin Hnone.
  destruct (format_missing _ kw n Hin Hnone) as (e & He & Hkind).
  exists e. unfold rendered, body. by rewrite He.
Qed.

End RegistryFacts.

(** ** Draws under the contract of [_randbelow] *)

Lemma py_index_in_range {A} (seq : list A) (i : Z) :
  0 <= i < Z.of_nat (length seq) -> exists x, py_index seq i = Ok x /\ In x seq.
Proof.
  intros Hi. unfold py_index.
  destruct (Z.ltb_spec i 0); [lia|].
  destruct (Z.leb_spec 0 i); [|lia].
  destruct (Z.ltb_spec i (Z.of_nat (length seq))); [|lia]. cbn [andb].
  destruct (lookup_lt_is_Some_2 seq (Z.to_nat i)) as [x Hx]; [lia|].
  exists x. rewrite Hx. split; [done|].
  apply list_elem_of_In, list_elem_of_lookup. eauto.
Qed.

Section Draws.
Context {G : RandomGen} {L : RandomGenLaws G}.

Lemma total_ret {A} (a : A) : total (retR a).
Proof. intros s. by exists a, s. Qed.

Lemma total_bind {A B} (c : Rand A) (k : A -> Rand B) :
  total c -> (forall a, total (k a)) -> total (bindRand c k).
Proof.
  intros Hc Hk s. destruct (Hc s) as (a & s1 & Ha).
  destruct (Hk a s1) as (b & s2 & Hb).
  exists b, s2. unfold bindRand. by rewrite Ha.
Qed.

Lemma total_randint (a b : Z) : total (randint a b).
Proof.
  intros s. unfold randint. destruct (randbelow (b - a + 1) s) as [r s'].
  by exists (a + r), s'.
Qed.

Lemma randint_range (a b : Z) (s s' : rng_state) (x : Z) :
  a <= b -> randint a b s = Ok (x, s') -> a <= x <= b.
Proof.
  intros Hab. unfold randint.
  pose proof (randbelow_range (b - a + 1) s ltac:(lia)) as Hr.
  destruct (randbelow (b - a + 1) s) as [r s1]. cbn [fst] in Hr.
  intros [= <- _]. lia.
Qed.

Lemma choice_in {A} (seq : list A) (s : rng_state) :
  seq <> [] -> exists x s', choice seq s = Ok (x, s') /\ In x seq.
Proof.
  intros Hne. unfold choice. destruct seq as [|x0 seq]; [done|].
  pose proof (randbelow_range (Z.of_nat (length (x0 :: seq))) s) as Hr.
  destruct (randbelow (Z.of_nat (length (x0 :: seq))) s) as [i s'].
  destruct (py_index_in_range (x0 :: seq) i) as (x & Hx & Hin).
  { apply Hr. cbn [length]. lia. }
  exists x, s'. by rewrite Hx.
Qed.

Lemma total_choice {A} (seq : list A) : seq <> [] -> total (choice seq).
Proof. intros Hne s. destruct (choice_in seq s Hne) as (x & s' & Hx & _). eauto. Qed.

Lemma total_repeatR {A} (n : nat) (act : Rand A) : total act -> total (repeatR n act).
Proof.
  intros Hact. induction n as [|n IH]; cbn [repeatR].
  - apply total_ret.
  - apply total_bind; [done|]. intros x.
    apply total_bind; [done|]. intros xs. apply total_ret.
Qed.

Lemma total_comprehension {A} (count : Rand Z) (act : Rand A) :
  total count -> total act -> total (comprehension count act).
Proof.
  intros Hc Hact. apply total_bind; [done|]. intros n. by apply total_repeatR.
Qed.

Lemma total_random_word (alphabet : string) :
  alphabet <> EmptyString -> total (random_word alphabet).
Proof.
  intros Hne. apply total_bind; [|intros; apply total_ret].
  apply total_comprehension; [apply total_randint|].
  apply total_choice. by destruct alphabet.
Qed.

(** Every parameter generator of the registry returns. *)
Lemma total_params (t : template) : In t templates -> total (params t).
Proof.
  intros [<- | [<- | [<- | [<- | [<- | []]]]]]; cbn [params fibonacci_iterative
    sieve_of_eratosthenes merge_sort_template levenshtein_distance dijkstra_on_grid].
  - apply total_bind; [apply total_randint | intros; apply total_ret].
  - apply total_bind; [apply total_randint | intros; apply total_ret].
  - apply total_bind; [|intros; apply total_ret].
    apply total_comprehension; apply total_randint.
  - apply total_bind; [by apply total_random_word | intros a].
    apply total_bind; [by apply total_random_word | intros; apply total_ret].
  - apply total_bind; [|intros; apply total_ret].
    apply total_comprehension; [apply total_randint|].
    apply total_comprehension; apply total_randint.
Qed.

(** [pick_template] returns a template of the registry. *)
Lemma pick_template_in (s : rng_state) :
  exists t s', pick_template s = Ok (t, s') /\ In t templates.
Proof. apply choice_in. done. Qed.

End Draws.

(** ** Paths *)

Lemma relative_to_app (root p : list string) : Fs.relative_to root (root ++ p) = Ok p.
Proof.
  induction root as [|r root IH]; [done|]. cbn. by rewrite String.eqb_refl.
Qed.

Lemma candidate_name_inj (date_str slug : string) (i j : nat) :
  candidate_name date_str slug i = candidate_name date_str slug j -> i = j.
Proof.
  destruct i as [|i], j as [|j]; unfold candidate_name, versioned_name; intros H.
  - done.
  - do 3 apply append_inj_l in H. discriminate H.
  - do 3 apply append_inj_l in H. discriminate H.
  - do 4 apply append_inj_l in H. apply append_inj_r in H.
    apply (inj pretty) in H. lia.
Qed.

Lemma candidate_inj (year_dir : list string) (date_str slug : string) (i j : nat) :
  candidate year_dir date_str slug i = candidate year_dir date_str slug j -> i = j.
Proof.
  unfold candidate, Fs.div. intros H%app_inv_head. injection H as H.
  by apply candidate_name_inj in H.
Qed.

(** The loop cannot find more taken names than there are files. *)
Lemma candidates_bound (fs : gmap (list string) string) (year_dir : list string)
    (date_str slug : string) (n : nat) :
  (forall i, (i < n)%nat -> is_Some (fs !! candidate year_dir date_str slug i)) ->
  (n <= size fs)%nat.
Proof.
  intros Htaken.
  pose (l := candidate year_dir date_str slug <$> seq 0 n).
  assert (NoDup l) as Hnd.
  { apply NoDup_fmap_2_strong; [|apply NoDup_seq].
    intros i j _ _. apply candidate_inj. }
  assert (length l = n) as Hlen by (unfold l; by rewrite length_fmap, length_seq).
  rewrite <- (size_dom (D := gset (list string)) fs), <- Hlen.
  rewrite <- (size_list_to_set (C := gset (list string)) l Hnd).
  apply subseteq_size. intros p Hp.
  apply elem_of_list_to_set, list_elem_of_fmap in Hp as (i & -> & Hi).
  apply elem_of_seq in Hi. apply elem_of_dom, Htaken. lia.
Qed.

Lemma candidate_not_index (ROOT : list string) (year date_str slug : string) (j : nat) :
  candidate (OUT_DIR ROOT / year) date_str slug j <> index_path ROOT.
Proof.
  unfold candidate, index_path, OUT_DIR, Fs.div. intros H.
  apply (f_equal length) in H. rewrite !length_app in H. cbn in H. lia.
Qed.


Lemma keep_not_index (ROOT : list string) :
  (OUT_DIR ROOT / ".gitkeep")%list <> index_path ROOT.
Proof.
  unfold index_path, Fs.div. intros H%app_inv_head. discriminate H.
Qed.

(** ** The scaffolding *)

Lemma ensure_index_spec (ROOT : list string) (w : world) :
  ensure_index ROOT w
  = (Ok tt, {| files := ensured ROOT (files w); now_calls := now_calls w;
               stdout := stdout w |}).
Proof.
  destruct w as [fs n out].
  unfold ensure_index, ensured, bindIO, Fs.mkdir, retIO, Fs.touch, Fs.exists_, Fs.write_text.
  cbn [files now_calls stdout].
  destruct (fs !! (OUT_DIR ROOT / ".gitkeep")%list) as [c|]; cbn [files now_calls stdout].
  - destruct (fs !! index_path ROOT) as [ci|] eqn:Hi.
    + rewrite bool_decide_eq_true_2 by eauto. done.
    + rewrite bool_decide_eq_false_2 by (intros [? ?]; done). done.
  - destruct (<[(OUT_DIR ROOT / ".gitkeep")%list := EmptyString]> fs !! index_path ROOT)
      as [ci|] eqn:Hi.
    + rewrite bool_decide_eq_true_2 by eauto. done.
    + rewrite bool_decide_eq_false_2 by (intros [? ?]; done). done.
Qed.

Lemma ensured_index (ROOT : list string) (fs : gmap (list string) string) :
  ensured ROOT fs !! index_path ROOT = Some (default index_header (fs !! index_path ROOT)).
Proof.
  pose proof (keep_not_index ROOT) as Hne. unfold ensured.
  destruct (fs !! (OUT_DIR ROOT / ".gitkeep")%list) as [c|].
  - destruct (fs !! index_path ROOT) as [ci|] eqn:Hi; [done|].
    by rewrite lookup_insert_eq.
  - rewrite lookup_insert_ne by done.
    destruct (fs !! index_path ROOT) as [ci|] eqn:Hi.
    + by rewrite lookup_insert_ne.
    + by rewrite lookup_insert_eq.
Qed.

(** A file that exists is left as it is. *)
Lemma ensured_existing (ROOT : list string) (fs : gmap (list string) string)
    (p : list string) (c : string) :
  fs !! p = Some c -> ensured ROOT fs !! p = Some c.
Proof.
  intros Hp. unfold ensured.
  destruct (fs !! (OUT_DIR ROOT / ".gitkeep")%list) as [ck|] eqn:Hk.
  - destruct (fs !! index_path ROOT) as [ci|] eqn:Hi; [done|].
    rewrite lookup_insert_ne; [done | congruence].
  - assert (<[(OUT_DIR ROOT / ".gitkeep")%list := EmptyString]> fs !! p = Some c) as Hp'.
    { rewrite lookup_insert_ne; [done | congruence]. }
    destruct (<[(OUT_DIR ROOT / ".gitkeep")%list := EmptyString]> fs !! index_path ROOT)
      as [ci|] eqn:Hi; [done|].
    rewrite lookup_insert_ne; [done | congruence].
Qed.

(** Nothing but the index and [.gitkeep] is touched. *)
Lemma ensured_other (ROOT : list string) (fs : gmap (list string) string) (p : list string) :
  p <> index_path ROOT -> p <> (OUT_DIR ROOT / ".gitkeep")%list ->
  ensured ROOT fs !! p = fs !! p.
Proof.
  intros Hi Hk. unfold ensured.
  destruct (fs !! (OUT_DIR ROOT / ".gitkeep")%list) as [ck|].
  - destruct (fs !! index_path ROOT) as [ci|]; [done|]. by rewrite lookup_insert_ne.
  - destruct (<[(OUT_DIR ROOT / ".gitkeep")%list := EmptyString]> fs !! index_path ROOT)
      as [ci|]; rewrite ?lookup_insert_ne; done.
Qed.

Lemma ensured_idempotent (ROOT : list string) (fs : gmap (list string) string) :
  ensured ROOT (ensured ROOT fs) = ensured ROOT fs.
Proof.
  pose proof (keep_not_index ROOT) as Hne.
  assert (is_Some (ensured ROOT fs !! index_path ROOT)) as [ci Hci]
    by (rewrite ensured_index; eauto).
  assert (is_Some (ensured ROOT fs !! (OUT_DIR ROOT / ".gitkeep")%list)) as [ck Hck].
  { destruct (fs !! (OUT_DIR ROOT / ".gitkeep")%list) as [c|] eqn:Hk.
    - exists c. by apply ensured_existing.
    - exists EmptyString. unfold ensured. rewrite Hk.
      destruct (<[(OUT_DIR ROOT / ".gitkeep")%list := EmptyString]> fs !! index_path ROOT).
      + by rewrite lookup_insert_eq.
      + rewrite lookup_insert_ne by done. by rewrite lookup_insert_eq. }
  unfold ensured at 1. by rewrite Hck, Hci.
Qed.

(** ** The search for a free path *)

(** With as much fuel as there are files the loop ends, at the first
    candidate that is not taken. *)
Lemma free_path_spec (fuel : nat) (year_dir : list string) (date_str slug : string)
    (j : nat) (w : world) :
  (forall i, (i < j)%nat -> is_Some (files w !! candidate year_dir date_str slug i)) ->
  (size (files w) <= j + fuel)%nat ->
  exists k, (j <= k)%nat /\
    free_path fuel year_dir date_str slug
      (candidate year_dir date_str slug j) (Z.of_nat j + 2) w
    = (Ok (candidate year_dir date_str slug k), w) /\
    files w !! candidate year_dir date_str slug k = None /\
    (forall i, (i < k)%nat -> is_Some (files w !! candidate year_dir date_str slug i)).
Proof.
  revert j. induction fuel as [|fuel IH]; intros j Htaken Hsize.
  - destruct (files w !! candidate year_dir date_str slug j) as [c|] eqn:Hj.
    + exfalso.
      assert (S j <= size (files w))%nat; [|lia].
      apply (candidates_bound _ year_dir date_str slug). intros i Hi.
      destruct (decide (i = j)) as [->|]; [eauto | apply Htaken; lia].
    + exists j. split; [lia|]. split; [|done].
      cbn [free_path]. unfold bindIO, Fs.exists_, retIO.
      rewrite Hj, bool_decide_eq_false_2 by (intros [? ?]; done). done.
  - destruct (files w !! candidate year_dir date_str slug j) as [c|] eqn:Hj.
    + destruct (IH (S j)) as (k & Hk & Hfree & Hnone & Hbelow).
      { intros i Hi. destruct (decide (i = j)) as [->|]; [eauto | apply Htaken; lia]. }
      { lia. }
      exists k. split; [lia|]. split; [|done].
      cbn [free_path]. unfold bindIO at 1. unfold Fs.exists_ at 1.
      rewrite Hj, bool_decide_eq_true_2 by eauto.
      replace (Z.of_nat j + 2 + 1) with (Z.of_nat (S j) + 2) by lia.
      replace (year_dir / versioned_name date_str slug (Z.of_nat j + 2))%list
        with (candidate year_dir date_str slug (S j)); [done|].
      unfold candidate, candidate_name. do 2 f_equal. lia.
    + exists j. split; [lia|]. split; [|done].
      cbn [free_path]. unfold bindIO, Fs.exists_, retIO.
      rewrite Hj, bool_decide_eq_false_2 by (intros [? ?]; done). done.
Qed.

(** ** [main], statement by statement *)

Section MainFacts.
Context {G : RandomGen}.
Variable ROOT : list string.
Variable clock : nat -> datetime.

Lemma emit_spec (t : template) (kw : gmap string pyval) (w : world) :
  let n := now_calls w in
  let date_str := Strftime.Y_m_d (clock n) in
  let year := Strftime.pY (clock (S n)) in
  let year_dir := (OUT_DIR ROOT / year)%list in
  let slug := slugify (name t) in
  exists k,
    files w !! candidate year_dir date_str slug k = None /\
    (forall i, (i < k)%nat -> is_Some (files w !! candidate year_dir date_str slug i)) /\
    emit ROOT clock t kw w =
      match rendered t kw date_str with
      | Raise e => (Raise e, ticked 2 w)
      | Ok text =>
          let rel := ["daily_code"; year; candidate_name date_str slug k]%string in
          (Ok (candidate year_dir date_str slug k),
           {| files :=
                <[index_path ROOT :=
                    default EmptyString (files w !! index_path ROOT) +:+
                    index_line (Strftime.Y_m_d_HM_UTC (clock (S (S n))))
                               (Fs.as_posix rel) (name t) (desc t)]>
                  (<[candidate year_dir date_str slug k := text]> (files w));
              now_calls := 3 + n;
              stdout := stdout w ++ ["Wrote " +:+ Fs.as_posix rel] |})
      end.
Proof.
  intros n date_str year year_dir slug.
  pose (w2 := ticked 2 w).
  destruct (free_path_spec (size (files w2)) year_dir date_str slug 0 w2)
    as (k & _ & Hfree & Hnone & Hbelow); [intros i Hi; lia | lia |].
  exists k. split; [done|]. split; [done|].
  unfold emit, bindIO at 1, utcnow at 1. cbn [files now_calls stdout].
  unfold bindIO at 1, utcnow at 1. cbn [files now_calls stdout].
  unfold bindIO at 1, Fs.mkdir at 1, retIO at 1.
  unfold bindIO at 1. cbn [files now_calls stdout].
  fold n date_str year year_dir slug.
  change (year_dir / (date_str +:+ "_" +:+ slug +:+ ".py"))%list
    with (candidate year_dir date_str slug 0).
  change (free_path (size (files w)) year_dir date_str slug
            (candidate year_dir date_str slug 0) 2
            {| files := files w; now_calls := S (S n); stdout := stdout w |})
    with (free_path (size (files w2)) year_dir date_str slug
            (candidate year_dir date_str slug 0) (Z.of_nat 0 + 2) w2).
  rewrite Hfree.
  unfold bindIO at 1, liftR at 1.
  destruct (rendered t kw date_str) as [text | e]; [|done].
  unfold bindIO at 1, Fs.write_text at 1. cbn [files now_calls stdout w2 ticked].
  unfold bindIO at 1, liftR at 1.
  assert (Fs.relative_to ROOT (candidate year_dir date_str slug k)
          = Ok ["daily_code"; year; candidate_name date_str slug k]%string) as ->.
  { unfold candidate, year_dir, OUT_DIR, Fs.div. rewrite <- !app_assoc.
    apply relative_to_app. }
  unfold update_index, bindIO, utcnow, Fs.append_text, Fs.write_text, Fs.print, retIO.
  cbn [files now_calls stdout].
  rewrite lookup_insert_ne by apply candidate_not_index.
  done.
Qed.

Lemma main_with_spec (pick : Rand template) (w : world) :
  main_with ROOT clock pick w =
    match today_seed (clock (now_calls w)) with
    | Raise e => (Raise e, ticked 1 w)
    | Ok seed =>
        let w1 := {| files := ensured ROOT (files w); now_calls := S (now_calls w);
                     stdout := stdout w |} in
        match pick (seed_rng seed) with
        | Raise e => (Raise e, w1)
        | Ok (t, s1) =>
            match params t s1 with
            | Raise e => (Raise e, w1)
            | Ok (kw, s2) =>
                match emit ROOT clock t kw w1 with
                | (Ok p, w2) => (Ok (t, kw, p), w2)
                | (Raise e, w2) => (Raise e, w2)
                end
            end
        end
    end.
Proof.
  unfold main_with, bindIO at 1, utcnow at 1.
  unfold bindIO at 1, liftR at 1.
  destruct (today_seed (clock (now_calls w))) as [seed | e]; [|done].
  unfold bindIO at 1. rewrite ensure_index_spec. cbn [files now_calls stdout].
  unfold bindIO at 1, liftR at 1.
  destruct (pick (seed_rng seed)) as [[t s1] | e]; [|done].
  unfold bindIO at 1, liftR at 1.
  destruct (params t s1) as [[kw s2] | e]; [|done].
  unfold bindIO, retIO.
  by destruct (emit ROOT clock t kw _) as [[p | e] w2].
Qed.

End MainFacts.

(** ** A whole run of [main] *)

Section Runs.
Context {G : RandomGen} {L : RandomGenLaws G}.
Variable ROOT : list string.

(** Under the contract of the generator and with a well-formed first
    reading of the clock, [main] returns: it picks a template of the
    registry, renders it, writes it at the first free candidate path and
    appends one line to the index. *)
Lemma main_spec (clock : nat -> datetime) (w : world) :
  let n := now_calls w in
  let date_str := Strftime.Y_m_d (clock (S n)) in
  let yr := Strftime.pY (clock (S (S n))) in
  let year_dir := (OUT_DIR ROOT / yr)%list in
  let fs1 := ensured ROOT (files w) in
  datetime_ok (clock n) ->
  exists seed t s1 kw s2 text k,
    today_seed (clock n) = Ok seed /\
    pick_template (seed_rng seed) = Ok (t, s1) /\ In t templates /\
    params t s1 = Ok (kw, s2) /\
    rendered t kw date_str = Ok text /\
    fs1 !! candidate year_dir date_str (slugify (name t)) k = None /\
    (forall i, (i < k)%nat ->
               is_Some (fs1 !! candidate year_dir date_str (slugify (name t)) i)) /\
    main ROOT clock w =
      let rel := ["daily_code"; yr; candidate_name date_str (slugify (name t)) k]%string in
      (Ok (t, kw, candidate year_dir date_str (slugify (name t)) k),
       {| files :=
            <[index_path ROOT :=
                default index_header (files w !! index_path ROOT) +:+
                index_line (Strftime.Y_m_d_HM_UTC (clock (S (S (S n)))))
                           (Fs.as_posix rel) (name t) (desc t)]>
              (<[candidate year_dir date_str (slugify (name t)) k := text]> fs1);
          now_calls := 4 + n;
          stdout := stdout w ++ ["Wrote " +:+ Fs.as_posix rel] |}).
Proof.
  intros n date_str yr year_dir fs1 Hok.
  pose proof (today_seed_value _ Hok) as Hseed.
  destruct (pick_template_in (seed_rng (year (clock n) * 10000 + month (clock n) * 100
                                         + day (clock n))))
    as (t & s1 & Hpick & Ht).
  destruct (total_params t Ht s1) as (kw & s2 & Hkw).
  pose proof (params_supply t s1 s2 kw Ht Hkw) as Hsup.
  destruct (rendered_supplied t kw (clock (S n)) Ht Hsup) as (text & Htext & _).
  pose (w1 := {| files := fs1; now_calls := S n; stdout := stdout w |}).
  destruct (emit_spec ROOT clock t kw w1) as (k & Hnone & Hbelow & Hemit).
  cbn [files now_calls stdout w1] in Hnone, Hbelow, Hemit.
  fold date_str yr year_dir in Hnone, Hbelow, Hemit.
  fold date_str in Htext. rewrite Htext in Hemit.
  eexists _, t, s1, kw, s2, text, k.
  do 7 (split; [done|]).
  unfold main. rewrite main_with_spec. fold n. rewrite Hseed. cbn zeta.
  rewrite Hpick, Hkw. fold fs1 w1. rewrite Hemit.
  unfold fs1 at 1. rewrite ensured_index. done.
Qed.

End Runs.

(** ** The stand-in generator meets the contract *)

Lemma LcgLaws : RandomGenLaws LcgGen.
Proof.
  constructor. intros n s Hn. cbn. unfold Lcg.randbelow. cbn [fst].
  apply Z.mod_pos_bound. lia.
Qed.

(** ** Text without newlines *)

Lemma numeral_newline_free (s : string) :
  forallb_str numeral_char s = true -> newline_free s = true.
Proof. apply forallb_str_mono, not_newline_of_numeral. Qed.

Lemma newline_free_app (a b : string) :
  newline_free (a +:+ b) = newline_free a && newline_free b.
Proof. apply forallb_str_app. Qed.

Lemma strftime_newline_free (d : datetime) :
  newline_free (Strftime.Y_m_d d) = true /\
  newline_free (Strftime.pY d) = true /\
  newline_free (Strftime.Y_m_d_HM_UTC d) = true.
Proof.
  assert (newline_free (Strftime.Y_m_d d) = true) as Hd
    by apply numeral_newline_free, Y_m_d_numeral.
  split; [done|]. split.
  - apply numeral_newline_free, pretty_Z_numeral.
  - unfold Strftime.Y_m_d_HM_UTC. rewrite !newline_free_app, Hd.
    by rewrite !(numeral_newline_free _ (pad2_numeral _)).
Qed.

Lemma candidate_name_newline_free (date_str slug : string) (k : nat) :
  newline_free date_str = true -> newline_free slug = true ->
  newline_free (candidate_name date_str slug k) = true.
Proof.
  intros Hd Hs. destruct k as [|k]; unfold candidate_name, versioned_name;
    rewrite !newline_free_app, Hd, Hs; [done|].
  by rewrite (numeral_newline_free _ (pretty_Z_numeral _)).
Qed.

Lemma as_posix_newline_free (a b c : string) :
  newline_free a = true -> newline_free b = true -> newline_free c = true ->
  newline_free (Fs.as_posix [a; b; c]) = true.
Proof.
  intros Ha Hb Hc. unfold Fs.as_posix. cbn [join].
  by rewrite !newline_free_app, Ha, Hb, Hc.
Qed.

(** An index line is one line when its parts hold no newline. *)
Lemma index_line_one_line (now rel title desc : string) :
  newline_free now = true -> newline_free rel = true ->
  newline_free title = true -> newline_free desc = true ->
  one_line (index_line now rel title desc).
Proof.
  intros Hn Hr Ht Hd.
  exists ("- " +:+ now +:+ ": [" +:+ title +:+ "](" +:+ rel +:+ ") " +:+
          index_separator +:+ " " +:+ desc).
  split.
  - unfold index_line. by rewrite !append_assoc.
  - by rewrite !newline_free_app, Hn, Hr, Ht, Hd.
Qed.


(** ** The claims about a run *)

Section Claims.
Context {G : RandomGen} {L : RandomGenLaws G}.

(** Runs whose clocks return the same date arrive at the same seed, the
    same template and the same parameters. *)
Lemma runs_select_alike (ROOT1 ROOT2 : list string)
    (clock1 clock2 : nat -> datetime) (w1 w2 : world) (d : datetime) :
  (forall k, datetime_ok (clock1 k) /\ date_of (clock1 k) = date_of d) ->
  (forall k, datetime_ok (clock2 k) /\ date_of (clock2 k) = date_of d) ->
  exists seed t kw p1 p2,
    seed = year d * 10000 + month d * 100 + day d /\
    today_seed (clock1 (now_calls w1)) = Ok seed /\
    today_seed (clock2 (now_calls w2)) = Ok seed /\
    (exists s1 s2, pick_template (seed_rng seed) = Ok (t, s1) /\
                   params t s1 = Ok (kw, s2)) /\
    fst (main ROOT1 clock1 w1) = Ok (t, kw, p1) /\
    fst (main ROOT2 clock2 w2) = Ok (t, kw, p2).
Proof.
  intros H1 H2.
  destruct (H1 (now_calls w1)) as [Hok1 Hd1], (H2 (now_calls w2)) as [Hok2 Hd2].
  destruct (main_spec ROOT1 clock1 w1 Hok1)
    as (seed & t & s1 & kw & s2 & text & k & Hseed & Hpick & _ & Hkw & _ & _ & _ & Hmain).
  destruct (main_spec ROOT2 clock2 w2 Hok2)
    as (seed' & t' & s1' & kw' & s2' & text' & k' & Hseed' & Hpick' & _ & Hkw' & _ & _ & _
        & Hmain').
  assert (seed' = seed) as ->.
  { rewrite (today_seed_same_date _ (clock1 (now_calls w1))) in Hseed' by congruence.
    congruence. }
  assert (t' = t /\ s1' = s1) as [-> ->] by (split; congruence).
  assert (kw' = kw) as -> by congruence.
  eexists seed, t, kw, _, _. split.
  { rewrite today_seed_value in Hseed by done. injection Hseed as <-.
    unfold date_of in Hd1. injection Hd1 as -> -> ->. done. }
  do 2 (split; [done|]). split; [by exists s1, s2|].
  rewrite Hmain, Hmain'. done.
Qed.

(** C1: two invocations whose clocks return the same UTC date choose the
    same template and the same parameter values, whatever the time of day
    and the state of the file tree.  The seed is the integer written
    YYYYMMDD; it initialises the generator, the template is drawn from
    that generator and the parameters from the generator as the draw of
    the template left it. *)
Theorem same_date_same_selection (ROOT1 ROOT2 : list string)
    (clock1 clock2 : nat -> datetime) (w1 w2 : world) (d : datetime) :
  (forall k, datetime_ok (clock1 k) /\ date_of (clock1 k) = date_of d) ->
  (forall k, datetime_ok (clock2 k) /\ date_of (clock2 k) = date_of d) ->
  exists seed t kw p1 p2,
    seed = year d * 10000 + month d * 100 + day d /\
    today_seed (clock1 (now_calls w1)) = Ok seed /\
    today_seed (clock2 (now_calls w2)) = Ok seed /\
    (exists s1 s2, pick_template (seed_rng seed) = Ok (t, s1) /\
                   params t s1 = Ok (kw, s2)) /\
    fst (main ROOT1 clock1 w1) = Ok (t, kw, p1) /\
    fst (main ROOT2 clock2 w2) = Ok (t, kw, p2).
Proof. apply runs_select_alike. Qed.

(** C7: an invocation appends exactly one line to the index: the content
    that the index had (its header when the index did not exist yet) is
    the beginning of the new content, and what follows is one line. *)
Theorem index_append_only (ROOT : list string) (clock : nat -> datetime) (w : world) :
  datetime_ok (clock (now_calls w)) ->
  exists r w' line,
    main ROOT clock w = (Ok r, w') /\
    one_line line /\
    files w' !! index_path ROOT
      = Some (default index_header (files w !! index_path ROOT) +:+ line) /\
    (forall old, files w !! index_path ROOT = Some old ->
       exists new, files w' !! index_path ROOT = Some new /\
                   new = old +:+ line /\ prefix_of old new).
Proof.
  intros Hok.
  destruct (main_spec ROOT clock w Hok)
    as (seed & t & s1 & kw & s2 & text & k & _ & _ & Ht & _ & _ & _ & _ & Hmain).
  cbn zeta in Hmain.
  eexists _, _,
    (index_line (Strftime.Y_m_d_HM_UTC (clock (S (S (S (now_calls w))))))
       (Fs.as_posix ["daily_code"%string; Strftime.pY (clock (S (S (now_calls w))));
                     candidate_name (Strftime.Y_m_d (clock (S (now_calls w))))
                       (slugify (name t)) k])
       (name t) (desc t)).
  split; [exact Hmain|].
  pose proof (registry_checked t Ht) as Hc. unfold registry_check in Hc.
  repeat (apply andb_prop in Hc as [Hc ?]).
  match goal with H : String.eqb _ _ = true |- _ => apply String.eqb_eq in H as Hslug end.
  split; [|split].
  - destruct (strftime_newline_free (clock (S (S (S (now_calls w)))))) as (_ & _ & Hnow).
    destruct (strftime_newline_free (clock (S (S (now_calls w))))) as (_ & Hyear & _).
    destruct (strftime_newline_free (clock (S (now_calls w)))) as (Hdate & _ & _).
    apply index_line_one_line; [done | | done | done].
    apply as_posix_newline_free; [done | done |].
    apply candidate_name_newline_free; [exact Hdate | rewrite Hslug; assumption].
  - cbn [files]. by rewrite lookup_insert_eq.
  - intros old Hold. eexists. cbn [files]. rewrite lookup_insert_eq, Hold. cbn [default].
    split; [done|]. split; [done|]. by eexists.
Qed.

(** C9: when the index exists, [ensure_index] returns with the index and
    every other file as they were, and a second call changes nothing
    either; no second header is written. *)
Theorem ensure_index_idempotent (ROOT : list string) (w : world) (old : string) :
  files w !! index_path ROOT = Some old ->
  exists w',
    ensure_index ROOT w = (Ok tt, w') /\
    files w' !! index_path ROOT = Some old /\
    (forall p c, files w !! p = Some c -> files w' !! p = Some c) /\
    ensure_index ROOT w' = (Ok tt, w').
Proof.
  intros Hold. eexists. split; [apply ensure_index_spec|]. cbn [files].
  split; [by apply ensured_existing|]. split; [intros p c; apply ensured_existing|].
  rewrite ensure_index_spec. cbn [files now_calls stdout].
  by rewrite ensured_idempotent.
Qed.

End Claims.

(** ** No file is overwritten *)



Section NoOverwrite.
Context {G : RandomGen} {L : RandomGenLaws G}.
Variable ROOT : list string.



End NoOverwrite.

Section TwoRuns.
Context {G : RandomGen} {L : RandomGenLaws G}.
Variable ROOT : list string.



End TwoRuns.

(** ** Placeholders and rendering *)

Section Rendering.
Context {G : RandomGen}.

(** C4: a template of the registry, rendered with a mapping that supplies
    a value for each placeholder of its code, gives a text in which no
    placeholder is left: the text is made of the header and of text of
    the template, which hold no brace, and, for each placeholder in the
    order of the code, of the text of the value that the mapping has for
    it.  Text that a value brings is not scanned again; every brace of
    the rendered text is a character of such a value, so the text has no
    marker when no value has an opening brace, and none when no value
    has a closing brace. *)
Theorem rendered_resolves_placeholders (t : template) (kw : gmap string pyval)
    (d : datetime) :
  In t templates ->
  supplies kw (Textwrap.dedent (code t)) ->
  exists parts,
    rendered t kw (Strftime.Y_m_d d) = Ok (assembled parts) /\
    Forall (resolved kw) parts /\
    placeholders parts = Fmt.fields (Textwrap.dedent (code t)) /\
    (forall b, is_brace b = true ->
       (forall n v, In (Val n v) parts -> lacks b (Fmt.str_val v) = true) ->
       has_marker (assembled parts) = false).
Proof.
  intros Ht Hsup. pose proof (registry_checked t Ht) as Hc.
  pose proof (registry_text_first t Ht) as Hfirst.
  unfold registry_check in Hc. repeat (apply andb_prop in Hc as [Hc ?]).
  unfold supplies in Hsup.
  unfold rendered, body, Fmt.format, Fmt.well_formed, Fmt.fields in *.
  destruct (Fmt.parse Fmt.InText (Textwrap.dedent (code t))) as [ps err]. cbn [fst snd] in *.
  destruct err; [done|].
  destruct (render_supplied ps kw) as (out & Hout & _); [done | |].
  { intros n Hn. apply Hsup. by apply in_fields_pieces. }
  rewrite Hout. cbn [bindR].
  apply (render_after_newlines _ _ _ Hfirst) in Hout.
  destruct (render_parts _ kw _ (plain_after_newlines ps ltac:(done)) Hout)
    as (parts & Hparts & Hres & Hnames).
  exists (Lit (header t (Strftime.Y_m_d d)) :: parts).
  assert (Forall (resolved kw) (Lit (header t (Strftime.Y_m_d d)) :: parts)) as Hall.
  { constructor; [|done]. cbn [resolved]. apply header_brace_free; [done..|].
    eapply forallb_str_mono; [apply not_brace_of_numeral | apply Y_m_d_numeral]. }
  split; [|split; [exact Hall|split]].
  - by rewrite Hparts.
  - rewrite <- fields_after_newlines, <- Hnames. reflexivity.
  - intros b Hb Hvals. apply (has_marker_lacks b); [done|]. apply assembled_lacks.
    apply List.Forall_forall. intros [s | n v] Hin.
    + apply lacks_brace_free; [done|]. by apply (proj1 (List.Forall_forall _ _) Hall _ Hin).
    + by apply (Hvals n).
Qed.

Variable ROOT : list string.
Variable clock : nat -> datetime.

(** C5: when the code of a template refers to a placeholder that the
    mapping lacks, the rendering raises ([KeyError] for the first lacking
    keyword, [IndexError] if a positional field comes before it), and
    [main] ends with that very exception: nothing handles it, neither the
    file nor the index line is written, only the scaffolding is in
    place. *)
Theorem missing_placeholder_is_fatal (t : template) (kw : gmap string pyval) (n : string)
    (pick : Rand template) (w : world) (seed : Z) (s1 s2 : rng_state) :
  In n (Fmt.fields (Textwrap.dedent (code t))) ->
  kw !! n = None ->
  today_seed (clock (now_calls w)) = Ok seed ->
  pick (seed_rng seed) = Ok (t, s1) ->
  params t s1 = Ok (kw, s2) ->
  exists e,
    rendered t kw (Strftime.Y_m_d (clock (S (now_calls w)))) = Raise e /\
    (e = IndexError \/ exists m, e = KeyError m /\ kw !! m = None) /\
    main_with ROOT clock pick w
      = (Raise e, {| files := ensured ROOT (files w); now_calls := 3 + now_calls w;
                     stdout := stdout w |}).
Proof.
  intros Hn Hnone Hseed Hpick Hkw.
  destruct (rendered_missing t kw (Strftime.Y_m_d (clock (S (now_calls w)))) n Hn Hnone)
    as (e & He & Hkind).
  exists e. split; [done|]. split; [done|].
  rewrite main_with_spec, Hseed. cbn zeta. rewrite Hpick, Hkw.
  destruct (emit_spec ROOT clock t kw
              {| files := ensured ROOT (files w); now_calls := S (now_calls w);
                 stdout := stdout w |}) as (k & _ & _ & Hemit).
  cbn [files now_calls stdout] in Hemit. rewrite He in Hemit. by rewrite Hemit.
Qed.

End Rendering.

Section Coverage.
Context {G : RandomGen} {L : RandomGenLaws G}.

(** C10: for every template of the registry and every state of the
    generator, the parameter generator returns a mapping with an entry for
    each placeholder of the template's code, and the template renders
    with it: the failure on a missing placeholder is not reachable from
    the registry. *)
Theorem registry_params_cover_placeholders (t : template) (s : rng_state) :
  In t templates ->
  exists kw s',
    params t s = Ok (kw, s') /\
    supplies kw (Textwrap.dedent (code t)) /\
    (exists b, body t kw = Ok b) /\
    (forall d, exists text, rendered t kw (Strftime.Y_m_d d) = Ok text).
Proof.
  intros Ht. destruct (total_params t Ht s) as (kw & s' & Hkw).
  pose proof (params_supply t s s' kw Ht Hkw) as Hsup.
  exists kw, s'. split; [done|]. split; [done|].
  assert (forall d, exists text, rendered t kw (Strftime.Y_m_d d) = Ok text) as Hall.
  { intros d. destruct (rendered_supplied t kw d Ht Hsup) as (text & Htext & _). eauto. }
  split; [|done].
  destruct (Hall {| year := 1; month := 1; day := 1; hour := 0; minute := 0; second := 0 |})
    as (text & Htext).
  unfold rendered in Htext. destruct (body t kw) as [b|e]; [eauto | done].
Qed.

(** The scalar parameters are drawn within the bounds that the registry
    writes. *)
Lemma params_scalar_ranges (s s' : rng_state) (kw : gmap string pyval) :
  (params fibonacci_iterative s = Ok (kw, s') ->
   exists n, kw = {[ "N"%string := VInt n ]} /\ 8 <= n <= 20) /\
  (params sieve_of_eratosthenes s = Ok (kw, s') ->
   exists n, kw = {[ "LIMIT"%string := VInt n ]} /\ 50 <= n <= 200).
Proof.
  split; cbn [params fibonacci_iterative sieve_of_eratosthenes];
    intros (n & s1 & Hn & Hk)%bindRand_ok; injection Hk as <- _;
    exists n; (split; [done|]); by eapply randint_range.
Qed.

End Coverage.

(** ** The index line *)

Lemma index_separator_bytes :
  index_separator
  = concat (map chr [195; 162; 226; 130; 172; 226; 128; 157]%nat).
Proof. reflexivity. Qed.

(** C8: the line that [update_index] appends has the form that the claim
    gives but for the separator: where the claim has an em dash (U+2014)
    the source has the three characters U+00E2 U+20AC U+201D, so the line
    is never the one of the specification. *)
Theorem index_line_differs_from_spec (now rel title desc : string) :
  index_line now rel title desc
  = "- " +:+ now +:+ ": [" +:+ title +:+ "](" +:+ rel +:+ ") " +:+
    index_separator +:+ " " +:+ desc +:+ nl /\
  index_separator <> em_dash /\
  index_line now rel title desc <> spec_index_line now rel title desc.
Proof.
  split; [reflexivity|]. split; [discriminate|].
  unfold index_line, spec_index_line. intros H.
  do 7 apply append_inj_l in H. discriminate H.
Qed.

(** ** The 4th of January 2024 under CPython's generator *)

Lemma seed_jan4 : today_seed jan4_morning = Ok 20240104.
Proof. vm_compute. reflexivity. Qed.

(** C3: on the 4th of January 2024 the generator of CPython, seeded with
    20240104, picks [dijkstra_on_grid] and draws a grid whose rows have 6,
    5, 4, 4, 6 and 6 cells: the length of each row is drawn anew.  The
    grid is not rectangular, and [dijkstra], which takes the column bound
    from the first row, indexes a shorter row out of bounds. *)
Theorem dijkstra_grid_is_jagged :
  bindR (selected (G := MtGen) 20240104)
        (fun sel => Ok (name (fst sel), snd sel !! "GRID"%string))
    = Ok ("dijkstra_on_grid"%string, Some (VGrid jagged_grid)) /\
  rectangular jagged_grid = false /\
  map (@length Z) jagged_grid = [6; 5; 4; 4; 6; 6]%nat /\
  Generated.dijkstra 1000 jagged_grid = Raise IndexError.
Proof. vm_compute. repeat split; reflexivity. Qed.

(** On a rectangular grid [dijkstra] returns the cost of the cheapest
    path. *)
Lemma dijkstra_rectangular_example :
  Generated.dijkstra 1000 [[1; 2; 3]; [4; 5; 6]; [7; 8; 9]] = Ok 21.
Proof. vm_compute. reflexivity. Qed.

(** The run of that morning on an empty tree, and its index line. *)
Lemma index_line_jan4 :
  exists line,
    files (snd (main (G := MtGen) example_root (fun _ => jan4_morning) empty_world))
      !! index_path example_root = Some (index_header +:+ line) /\
    line = index_line "2024-01-04 06:05 UTC"
             "daily_code/2024/2024-01-04_dijkstra_on_grid.py" "dijkstra_on_grid"
             "Dijkstra shortest path on a small weighted grid (no deps)." /\
    contains em_dash line = false /\
    contains index_separator line = true.
Proof. eexists. vm_compute. repeat split; reflexivity. Qed.

(** ** The snippet script *)

Section SnippetFacts.
Context {G : RandomGen}.
Variable clock : nat -> datetime.


End SnippetFacts.


(** ** The theorems at concrete inputs *)

Lemma jan4_clock_ok (t : datetime) :
  t = jan4_morning \/ t = jan4_evening ->
  forall k : nat, datetime_ok ((fun _ => t) k) /\ date_of ((fun _ => t) k) = date_of jan4_morning.
Proof.
  intros [-> | ->] k; (split; [unfold datetime_ok; cbn; lia | reflexivity]).
Defined.

Lemma same_date_same_selection_witness :
  exists seed t kw p1 p2,
    seed = year jan4_morning * 10000 + month jan4_morning * 100 + day jan4_morning /\
    today_seed jan4_morning = Ok seed /\
    today_seed jan4_evening = Ok seed /\
    (exists s1 s2, pick_template (G := LcgGen) (seed_rng seed) = Ok (t, s1) /\
                   params t s1 = Ok (kw, s2)) /\
    fst (main example_root (fun _ => jan4_morning) empty_world) = Ok (t, kw, p1) /\
    fst (main ["elsewhere"%string] (fun _ => jan4_evening) empty_world) = Ok (t, kw, p2).
Proof.
  apply (same_date_same_selection (G := LcgGen) (L := LcgLaws)
           example_root ["elsewhere"%string]
           (fun _ => jan4_morning) (fun _ => jan4_evening)
           empty_world empty_world jan4_morning).
  - apply jan4_clock_ok. by left.
  - apply jan4_clock_ok. by right.
Defined.


Lemma rendered_resolves_placeholders_witness :
  exists parts,
    rendered (@fibonacci_iterative LcgGen) {[ "N"%string := VInt 12 ]}
             (Strftime.Y_m_d jan4_morning) = Ok (assembled parts) /\
    Forall (resolved {[ "N"%string := VInt 12 ]}) parts /\
    placeholders parts = Fmt.fields (Textwrap.dedent (code (@fibonacci_iterative LcgGen))) /\
    (forall b, is_brace b = true ->
       (forall n v, In (Val n v) parts -> lacks b (Fmt.str_val v) = true) ->
       has_marker (assembled parts) = false).
Proof.
  apply (rendered_resolves_placeholders (G := LcgGen) fibonacci_iterative
           {[ "N"%string := VInt 12 ]} jan4_morning).
  - left. reflexivity.
  - intros n Hn. exists (VInt 12). cbn [code fibonacci_iterative] in Hn.
    rewrite fields_fibonacci_iterative in Hn.
    destruct Hn as [<- | [<- | []]]; apply lookup_singleton_eq.
Defined.

Lemma missing_placeholder_is_fatal_witness :
  exists e,
    rendered (@mismatched_template LcgGen) {[ "X"%string := VInt 1 ]}
             (Strftime.Y_m_d jan4_morning) = Raise e /\
    (e = IndexError \/
     exists m, e = KeyError m /\ ({[ "X"%string := VInt 1 ]} : gmap string pyval) !! m = None) /\
    main_with (G := LcgGen) example_root (fun _ => jan4_morning)
      (retR mismatched_template) empty_world
      = (Raise e, {| files := ensured example_root ∅; now_calls := 3; stdout := [] |}).
Proof.
  apply (missing_placeholder_is_fatal (G := LcgGen) example_root (fun _ => jan4_morning)
           mismatched_template {[ "X"%string := VInt 1 ]} "Y"
           (retR mismatched_template) empty_world 20240104 20240104 20240104).
  - vm_compute. right. left. reflexivity.
  - vm_compute. reflexivity.
  - vm_compute. reflexivity.
  - reflexivity.
  - reflexivity.
Defined.

Lemma index_append_only_witness :
  exists r w' line,
    main (G := LcgGen) example_root (fun _ => jan4_morning) empty_world = (Ok r, w') /\
    one_line line /\
    files w' !! index_path example_root
      = Some (default index_header (files empty_world !! index_path example_root) +:+ line) /\
    (forall old, files empty_world !! index_path example_root = Some old ->
       exists new, files w' !! index_path example_root = Some new /\
                   new = old +:+ line /\ prefix_of old new).
Proof.
  apply (index_append_only (G := LcgGen) (L := LcgLaws) example_root
           (fun _ => jan4_morning) empty_world).
  unfold datetime_ok. cbn. lia.
Defined.

Lemma ensure_index_idempotent_witness :
  let w := {| files := {[ index_path example_root := "# Log"%string ]};
              now_calls := 0; stdout := [] |} in
  exists w',
    ensure_index example_root w = (Ok tt, w') /\
    files w' !! index_path example_root = Some "# Log"%string /\
    (forall p c, files w !! p = Some c -> files w' !! p = Some c) /\
    ensure_index example_root w' = (Ok tt, w').
Proof.
  intros w. apply (ensure_index_idempotent example_root w "# Log").
  apply lookup_singleton_eq.
Defined.

Lemma registry_params_cover_placeholders_witness :
  exists kw s',
    params (@levenshtein_distance LcgGen) 20240104 = Ok (kw, s') /\
    supplies kw (Textwrap.dedent (code (@levenshtein_distance LcgGen))) /\
    (exists b, body (G := LcgGen) levenshtein_distance kw = Ok b) /\
    (forall d, exists text,
       rendered (G := LcgGen) levenshtein_distance kw (Strftime.Y_m_d d) = Ok text).
Proof.
  apply (registry_params_cover_placeholders (G := LcgGen) (L := LcgLaws)
           levenshtein_distance 20240104).
  do 3 right. left. reflexivity.
Defined.

(** * Further properties of the code *)

(** ** [slugify] *)

Lemma slug_char_to_lower (a : ascii) : slug_char a = true -> to_lower a = a.
Proof.
  intros Ha. unfold to_lower. destruct (is_upper a) eqn:Hu; [|done]. exfalso.
  unfold slug_char, is_lower, is_digit in Ha. unfold is_upper in Hu.
  apply andb_prop in Hu as [H1%N.leb_le H2%N.leb_le].
  destruct (Ascii.eqb_spec a "_") as [Heq|_]; [subst a; cbn in H2; lia|].
  rewrite orb_false_r in Ha.
  apply orb_prop in Ha as [Ha|Ha]; apply andb_prop in Ha as [H3%N.leb_le H4%N.leb_le]; lia.
Qed.

Lemma slug_from_safe (in_run : bool) (s : string) : slug_safe (slug_from in_run s) = true.
Proof.
  revert in_run. induction s as [|a s IH]; intros in_run; [done|]. cbn [slug_from].
  destruct (slug_char a) eqn:Ha.
  - unfold slug_safe. cbn [forallb_str]. rewrite Ha. apply IH.
  - destruct in_run; [apply IH|]. unfold slug_safe. cbn [forallb_str]. apply IH.
Qed.

Lemma slug_from_fixes_safe (in_run : bool) (s : string) :
  slug_safe s = true -> slug_from in_run s = s.
Proof.
  revert in_run. induction s as [|a s IH]; intros in_run; [done|].
  unfold slug_safe. cbn [forallb_str slug_from]. intros [Ha Hs]%andb_prop.
  rewrite Ha. f_equal. by apply IH.
Qed.

Lemma lower_fixes_safe (s : string) : slug_safe s = true -> lower s = s.
Proof.
  induction s as [|a s IH]; [done|].
  unfold slug_safe, lower. cbn [forallb_str map_str]. intros [Ha Hs]%andb_prop.
  rewrite (slug_char_to_lower a Ha). f_equal. by apply IH.
Qed.

(** X1: a slug holds only characters of [a-z0-9_]; [slugify] leaves such a
    text as it is, and so applying it twice is applying it once. *)
Theorem slugify_safe_idempotent (s : string) :
  slug_safe (slugify s) = true /\
  (slug_safe s = true -> slugify s = s) /\
  slugify (slugify s) = slugify s.
Proof.
  assert (forall t, slug_safe t = true -> slugify t = t) as Hfix.
  { intros t Ht. unfold slugify. rewrite (lower_fixes_safe t Ht).
    by apply slug_from_fixes_safe. }
  split; [apply slug_from_safe|]. split; [apply Hfix|].
  apply Hfix, slug_from_safe.
Qed.

Lemma slugify_safe_idempotent_witness :
  slugify "merge_sort" = "merge_sort"%string /\
  slugify "Merge Sort (v2)!" = "merge_sort_v2_"%string.
Proof.
  split.
  - apply (proj1 (proj2 (slugify_safe_idempotent "merge_sort"))). reflexivity.
  - reflexivity.
Defined.

(** ** [today_seed] *)

(** X2: the seed of a well-formed date is year * 10000 + month * 100 + day,
    so two dates with the same seed are the same date. *)
Theorem today_seed_injective (d1 d2 : datetime) :
  datetime_ok d1 -> datetime_ok d2 ->
  today_seed d1 = Ok (year d1 * 10000 + month d1 * 100 + day d1) /\
  (today_seed d1 = today_seed d2 -> date_of d1 = date_of d2).
Proof.
  intros H1 H2. rewrite (today_seed_value d1 H1), (today_seed_value d2 H2).
  split; [done|]. intros [= Heq].
  destruct H1 as (? & ? & ? & _), H2 as (? & ? & ? & _).
  unfold date_of.
  assert (year d1 = year d2) as -> by lia.
  assert (month d1 = month d2) as -> by lia.
  assert (day d1 = day d2) as -> by lia. done.
Qed.

Lemma today_seed_injective_witness :
  today_seed jan4_morning = Ok (2024 * 10000 + 1 * 100 + 4) /\
  (today_seed jan4_morning = today_seed jan4_evening ->
   date_of jan4_morning = date_of jan4_evening).
Proof.
  apply (today_seed_injective jan4_morning jan4_evening);
    unfold datetime_ok; cbn; lia.
Defined.

(** ** What the parameter generators draw *)

Lemma length_string_of_list_ascii (cs : list ascii) :
  String.length (string_of_list_ascii cs) = length cs.
Proof. induction cs as [|c cs IH]; cbn; [done | by rewrite IH]. Qed.



Section Shapes.
Context {G : RandomGen} {L : RandomGenLaws G}.

Lemma repeatR_Forall {A} (P : A -> Prop) (act : Rand A) :
  (forall s x s', act s = Ok (x, s') -> P x) ->
  forall n s xs s', repeatR n act s = Ok (xs, s') -> length xs = n /\ Forall P xs.
Proof.
  intros Hact. induction n as [|n IH]; intros s xs s'; cbn [repeatR].
  - unfold retR. intros [= <- _]. by split.
  - intros (x & s1 & Hx & Hrest)%bindRand_ok.
    apply bindRand_ok in Hrest as (xs' & s2 & Hxs & Hret).
    unfold retR in Hret. injection Hret as <- _.
    destruct (IH _ _ _ Hxs) as [Hlen Hall]. cbn [length]. split; [by rewrite Hlen|].
    constructor; [by eapply Hact | done].
Qed.

Lemma comprehension_shape {A} (P : A -> Prop) (lo hi : Z) (act : Rand A) :
  0 <= lo <= hi ->
  (forall s x s', act s = Ok (x, s') -> P x) ->
  forall s xs s', comprehension (randint lo hi) act s = Ok (xs, s') ->
    lo <= Z.of_nat (length xs) <= hi /\ Forall P xs.
Proof.
  intros Hlo Hact s xs s'. unfold comprehension.
  intros (n & s1 & Hn & Hxs)%bindRand_ok.
  apply randint_range in Hn; [|lia].
  destruct (repeatR_Forall P act Hact _ _ _ _ Hxs) as [Hlen Hall].
  split; [lia | done].
Qed.

(** X3: the grid of [dijkstra_on_grid] has 4 to 6 rows; each row has 4 to
    6 weights, its length drawn on its own, and every weight is between 1
    and 9. *)
Theorem grid_params_shape (s : rng_state) :
  exists g s',
    params dijkstra_on_grid s = Ok ({[ "GRID"%string := VGrid g ]}, s') /\
    4 <= Z.of_nat (length g) <= 6 /\
    Forall (fun row => 4 <= Z.of_nat (length row) <= 6 /\
                       Forall (fun x => 1 <= x <= 9) row) g.
Proof.
  destruct (total_params dijkstra_on_grid ltac:(do 4 right; by left) s) as (kw & s' & Hkw).
  pose proof Hkw as Hshape. cbn [params dijkstra_on_grid] in Hshape.
  apply bindRand_ok in Hshape as (g & s1 & Hg & Hret).
  unfold retR in Hret. injection Hret as <- <-.
  exists g, s1. split; [done|].
  eapply (comprehension_shape _ 4 6); [lia | | exact Hg].
  intros s2 row s3 Hrow.
  eapply (comprehension_shape _ 4 6); [lia | | exact Hrow].
  intros s4 x s5 Hx. by eapply randint_range.
Qed.

(** X4: the two words of [levenshtein_distance] have 4 to 7 letters, taken
    from "codecraft" for [A] and from "workflows" for [B]; neither is
    empty. *)
Theorem word_params_shape (s : rng_state) :
  exists a b s',
    params levenshtein_distance s
      = Ok (<[ "B"%string := VStr b ]> {[ "A"%string := VStr a ]}, s') /\
    4 <= Z.of_nat (String.length a) <= 7 /\
    4 <= Z.of_nat (String.length b) <= 7 /\
    Forall (fun c => In c (list_ascii_of_string "codecraft")) (list_ascii_of_string a) /\
    Forall (fun c => In c (list_ascii_of_string "workflows")) (list_ascii_of_string b).
Proof.
  destruct (total_params levenshtein_distance ltac:(do 3 right; by left) s)
    as (kw & s' & Hkw).
  pose proof Hkw as Hshape. cbn [params levenshtein_distance] in Hshape.
  apply bindRand_ok in Hshape as (a & s1 & Ha & Hrest).
  apply bindRand_ok in Hrest as (b & s2 & Hb & Hret).
  unfold retR in Hret. injection Hret as <- <-.
  exists a, b, s2. split; [done|].
  assert (forall alphabet w s3 s4,
            alphabet <> EmptyString ->
            random_word alphabet s3 = Ok (w, s4) ->
            4 <= Z.of_nat (String.length w) <= 7 /\
            Forall (fun c => In c (list_ascii_of_string alphabet))
                   (list_ascii_of_string w)) as Hword.
  { intros alphabet w s3 s4 Hne. unfold random_word.
    intros (cs & s5 & Hcs & Hret)%bindRand_ok.
    unfold retR in Hret. injection Hret as <- _.
    rewrite length_string_of_list_ascii, list_ascii_of_string_of_list_ascii.
    eapply (comprehension_shape _ 4 7); [lia | | exact Hcs].
    intros s6 c s7 Hc.
    destruct (choice_in (list_ascii_of_string alphabet) s6) as (c' & s8 & Hc' & Hin).
    { by destruct alphabet. }
    congruence. }
  assert ("codecraft"%string <> EmptyString /\ "workflows"%string <> EmptyString)
    as [Hc Hw] by (split; intros H; discriminate H).
  destruct (Hword _ _ _ _ Hc Ha) as [? ?].
  destruct (Hword _ _ _ _ Hw Hb) as [? ?]. done.
Qed.


(** X6: [N] of [fibonacci_iterative] is drawn between 8 and 20 and
    [LIMIT] of [sieve_of_eratosthenes] between 50 and 200. *)
Theorem scalar_params_in_range (s : rng_state) :
  (exists n s', params fibonacci_iterative s = Ok ({[ "N"%string := VInt n ]}, s') /\
                8 <= n <= 20) /\
  (exists n s', params sieve_of_eratosthenes s = Ok ({[ "LIMIT"%string := VInt n ]}, s') /\
                50 <= n <= 200).
Proof.
  split.
  - destruct (total_randint 8 20 s) as (n & s' & Hn). exists n, s'.
    cbn [params fibonacci_iterative]. unfold bindRand. rewrite Hn.
    split; [done|]. by eapply randint_range.
  - destruct (total_randint 50 200 s) as (n & s' & Hn). exists n, s'.
    cbn [params sieve_of_eratosthenes]. unfold bindRand. rewrite Hn.
    split; [done|]. by eapply randint_range.
Qed.

End Shapes.

(** ** The sieve of Eratosthenes *)

Lemma py_index_nonneg {A} (seq : list A) (i : Z) (x : A) :
  0 <= i -> seq !! Z.to_nat i = Some x -> py_index seq i = Ok x.
Proof.
  intros Hi Hx. pose proof (lookup_lt_Some _ _ _ Hx) as Hlt. unfold py_index.
  destruct (Z.ltb_spec i 0); [lia|].
  destruct (Z.leb_spec 0 i); [|lia].
  destruct (Z.ltb_spec i (Z.of_nat (length seq))); [|lia].
  cbn [andb]. by rewrite Hx.
Qed.

Lemma py_setitem_in_range {A} (seq : list A) (i : Z) (x : A) :
  0 <= i < Z.of_nat (length seq) ->
  Generated.py_setitem seq i x = Ok (<[Z.to_nat i := x]> seq).
Proof.
  intros Hi. unfold Generated.py_setitem.
  destruct (Z.ltb_spec i 0); [lia|].
  destruct (Z.leb_spec 0 i); [|lia].
  destruct (Z.ltb_spec i (Z.of_nat (length seq))); [|lia]. done.
Qed.

Lemma lookup_insert_false (sieve : list bool) (i k : nat) :
  (i < length sieve)%nat ->
  <[i := false]> sieve !! k = Some true <-> sieve !! k = Some true /\ k <> i.
Proof.
  intros Hi. destruct (decide (k = i)) as [->|Hne].
  - rewrite list_lookup_insert_eq by done. split; [done | intros [_ ?]; congruence].
  - rewrite list_lookup_insert_ne by done. split; [done | by intros [? _]].
Qed.

(** The inner loop clears exactly the cells that it visits. *)
Lemma strike_spec (ms : list Z) (sieve : list bool) :
  Forall (fun m => 0 <= m < Z.of_nat (length sieve)) ms ->
  exists sieve',
    Generated.strike ms sieve = Ok sieve' /\
    length sieve' = length sieve /\
    forall k, sieve' !! k = Some true <-> sieve !! k = Some true /\ ~ In (Z.of_nat k) ms.
Proof.
  revert sieve. induction ms as [|m ms IH]; intros sieve Hms.
  - exists sieve. split; [done|]. split; [done|]. intros k. cbn [In]. tauto.
  - apply Forall_cons in Hms as [Hm Hms].
    destruct (IH (<[Z.to_nat m := false]> sieve)) as (sieve' & Hrun & Hlen & Hcells).
    { by rewrite length_insert. }
    exists sieve'. cbn [Generated.strike]. rewrite py_setitem_in_range by done.
    cbn [bindR]. split; [done|]. rewrite Hlen, length_insert. split; [done|].
    intros k. rewrite Hcells, lookup_insert_false by lia. cbn [In].
    split.
    + intros [[Hk Hne] Hnot]. split; [done|]. intros [Heq | Hin]; [|done].
      apply Hne. lia.
    + intros [Hk Hnot]. split; [split; [done|] |].
      * intros ->. apply Hnot. left. lia.
      * intros Hin. apply Hnot. by right.
Qed.

(** The numbers of [range(start, stop, step)]. *)
Lemma in_range3 (start stop step m : Z) :
  0 < step ->
  In m (Generated.range3 start stop step) <->
  start <= m < stop /\ (step | m - start).
Proof.
  intros Hstep. unfold Generated.range3. rewrite in_map_iff.
  pose proof (Z.div_mod (stop - start + step - 1) step ltac:(lia)) as Hdm.
  pose proof (Z.mod_pos_bound (stop - start + step - 1) step Hstep) as Hr.
  set (q := (stop - start + step - 1) / step) in *.
  set (r := (stop - start + step - 1) mod step) in *.
  split.
  - intros (k & <- & Hk%in_seq). split; [|exists (Z.of_nat k); lia].
    assert (Z.of_nat k < q) by lia. nia.
  - intros [Hm [k Hk]]. exists (Z.to_nat k).
    assert (0 <= k) by nia.
    split; [lia|]. apply in_seq. split; [lia|]. cbn.
    assert (k < q) by nia. lia.
Qed.

Lemma proper_divisor_cofactor (d m : Z) :
  2 <= d -> 2 <= m -> (d | m) -> d <> m -> exists e, m = d * e /\ 2 <= e.
Proof.
  intros Hd Hm [e He] Hne. exists e. split; [lia|].
  assert (0 < e) by nia. assert (e <> 1) by (intros ->; lia). lia.
Qed.

Section Sieve.
Variable limit : Z.

Lemma sieved_step (p : Z) (sieve : list bool) :
  2 <= p -> p * p <= limit -> sieved limit p sieve ->
  exists is_p sieve',
    py_index sieve p = Ok is_p /\
    (if is_p then Generated.strike (Generated.range3 (p * p) (limit + 1) p) sieve
     else Ok sieve) = Ok sieve' /\
    sieved limit (p + 1) sieve'.
Proof.
  intros Hp Hpp [Hlen Hcells].
  assert (p <= limit) by nia.
  destruct (lookup_lt_is_Some_2 sieve (Z.to_nat p)) as [is_p His]; [lia|].
  exists is_p. rewrite (py_index_nonneg sieve p is_p) by (done || lia).
  destruct is_p.
  - (* p has no proper divisor: its multiples from p * p on are struck *)
    apply Hcells in His as [_ Hprime]; [|lia].
    destruct (strike_spec (Generated.range3 (p * p) (limit + 1) p) sieve)
      as (sieve' & Hrun & Hlen' & Hstruck).
    { apply List.Forall_forall. intros m Hm%in_range3; lia. }
    exists sieve'. split; [done|]. split; [done|]. split; [lia|].
    intros m Hm. rewrite Hstruck, Hcells by done. rewrite Z2Nat.id by lia.
    rewrite in_range3 by lia. split.
    + intros [[Hm2 Hbelow] Hnot]. split; [done|]. intros d Hd Hdm.
      destruct (decide (d = p)) as [->|]; [|apply Hbelow; [lia | done]].
      destruct (decide (p = m)) as [|Hne]; [done|]. exfalso.
      destruct (proper_divisor_cofactor p m) as (e & -> & He); [lia..|done|done|].
      destruct (decide (e < p)) as [Hlt|Hge].
      * assert (e = p * e) by (apply Hbelow; [lia | by exists p; lia]). nia.
      * apply Hnot. split; [nia|]. exists (e - p). lia.
    + intros [Hm2 Hbelow]. split; [split; [done|] |].
      * intros d Hd. apply Hbelow. lia.
      * intros [Hrange [k Hk]].
        assert (p = m) by (apply Hbelow; [lia | exists (k + p); lia]). nia.
  - (* p has a proper divisor: nothing is struck *)
    exists sieve. split; [done|]. split; [done|]. split; [done|].
    intros m Hm. rewrite Hcells by done. split.
    + intros [Hm2 Hbelow]. split; [done|]. intros d Hd Hdm.
      destruct (decide (d = p)) as [->|]; [|apply Hbelow; [lia | done]].
      exfalso.
      assert (~ (2 <= p /\ forall d, 2 <= d < p -> (d | p) -> d = p)) as Hnp.
      { intros Hp'. apply Hcells in Hp'; [|lia]. congruence. }
      apply Hnp. split; [done|]. intros d Hd' Hdp.
      assert (d = m) by (apply Hbelow; [lia | by etrans]).
      subst d. apply Z.divide_pos_le in Hdm; lia.
    + intros [Hm2 Hbelow]. split; [done|]. intros d Hd. apply Hbelow. lia.
Qed.

Lemma sieved_done (p : Z) (sieve : list bool) (m : Z) :
  2 <= p -> limit < p * p -> sieved limit p sieve -> 0 <= m <= limit ->
  sieve !! Z.to_nat m = Some true <-> is_prime m.
Proof.
  intros Hp Hpp [_ Hcells] Hm. rewrite Hcells by done. unfold is_prime. split.
  - intros [Hm2 Hbelow]. split; [done|]. intros d Hd Hdm.
    destruct (proper_divisor_cofactor d m) as (e & -> & He); [lia..|done|lia|].
    destruct (decide (d < p)) as [Hlt|Hge].
    + assert (d = d * e) by (apply Hbelow; [lia | done]). nia.
    + assert (e < p) by nia.
      assert (e = d * e) by (apply Hbelow; [lia | by exists d]). nia.
  - intros [Hm2 Hnone]. split; [done|]. intros d Hd Hdm.
    destruct (decide (d = m)) as [|Hne]; [done|]. exfalso.
    apply (Hnone d); [|done]. apply Z.divide_pos_le in Hdm; lia.
Qed.

(** The outer loop ends within [fuel] rounds and leaves the primes set. *)
Lemma sieve_loop_spec (fuel : nat) (p : Z) (sieve : list bool) :
  2 <= p -> limit < p + Z.of_nat fuel -> sieved limit p sieve ->
  exists sieve',
    Generated.sieve_loop fuel limit p sieve = Ok sieve' /\
    length sieve' = Z.to_nat (limit + 1) /\
    forall m, 0 <= m <= limit -> (sieve' !! Z.to_nat m = Some true <-> is_prime m).
Proof.
  revert p sieve. induction fuel as [|fuel IH]; intros p sieve Hp Hfuel Hs.
  - exists sieve. cbn [Generated.sieve_loop].
    destruct (Z.leb_spec (p * p) limit); [nia|].
    split; [done|]. split; [apply Hs|]. intros m Hm. by apply (sieved_done p).
  - cbn [Generated.sieve_loop]. destruct (Z.leb_spec (p * p) limit).
    + destruct (sieved_step p sieve) as (is_p & sieve1 & Hidx & Hstrike & Hs1); [done..|].
      rewrite Hidx. cbn [bindR]. rewrite Hstrike. cbn [bindR].
      apply IH; [lia | lia | done].
    + exists sieve. split; [done|]. split; [apply Hs|].
      intros m Hm. by apply (sieved_done p).
Qed.

End Sieve.

Lemma marked_from_spec (i : Z) (sieve : list bool) :
  StronglySorted Z.lt (Generated.marked_from i sieve) /\
  forall m, In m (Generated.marked_from i sieve) <->
            i <= m /\ sieve !! Z.to_nat (m - i) = Some true.
Proof.
  revert i. induction sieve as [|b sieve IH]; intros i.
  - split; [constructor|]. intros m. split; [done | by intros [_ ?]].
  - destruct (IH (i + 1)) as [Hsorted Hin].
    assert (forall m, i + 1 <= m ->
              (b :: sieve) !! Z.to_nat (m - i) = sieve !! Z.to_nat (m - (i + 1))) as Hshift.
    { intros m Hm. replace (Z.to_nat (m - i)) with (S (Z.to_nat (m - (i + 1)))) by lia.
      done. }
    cbn [Generated.marked_from]. destruct b.
    + split.
      * constructor; [done|]. apply List.Forall_forall. intros m Hm%Hin. lia.
      * intros m. cbn [In]. rewrite Hin. split.
        -- intros [<- | [Hm Hc]].
           ++ split; [lia|]. by rewrite Z.sub_diag.
           ++ split; [lia|]. by rewrite Hshift.
        -- intros [Hm Hc]. destruct (decide (m = i)) as [->|]; [by left|].
           right. split; [lia|]. by rewrite <- Hshift by lia.
    + split; [done|]. intros m. rewrite Hin. split.
      * intros [Hm Hc]. split; [lia|]. by rewrite Hshift.
      * intros [Hm Hc]. destruct (decide (m = i)) as [->|].
        -- by rewrite Z.sub_diag in Hc.
        -- split; [lia|]. by rewrite <- Hshift by lia.
Qed.

(** X7: [primes_up_to] returns, in increasing order, exactly the prime
    numbers up to [limit]; no index is out of range and the loop ends. *)
Theorem primes_up_to_correct (limit : Z) :
  exists l,
    Generated.primes_up_to limit = Ok l /\
    StronglySorted Z.lt l /\
    forall m, In m l <-> is_prime m /\ m <= limit.
Proof.
  unfold Generated.primes_up_to. destruct (Z.ltb_spec limit 2) as [Hsmall | Hbig].
  - exists []. split; [done|]. split; [constructor|].
    intros m. split; [done|]. intros [[? _] ?]. lia.
  - set (sieve0 := replicate (Z.to_nat (limit + 1)) true).
    assert (length sieve0 = Z.to_nat (limit + 1)) as Hlen0 by apply length_replicate.
    rewrite py_setitem_in_range by lia. cbn [bindR].
    rewrite py_setitem_in_range by (rewrite length_insert; lia). cbn [bindR].
    destruct (sieve_loop_spec limit (Z.to_nat limit) 2
                (<[Z.to_nat 1 := false]> (<[Z.to_nat 0 := false]> sieve0)))
      as (sieve' & -> & Hlen & Hcells); [lia | lia | |].
    { split; [by rewrite !length_insert|]. intros m Hm.
      rewrite !lookup_insert_false by (rewrite ?length_insert; lia).
      unfold sieve0. rewrite lookup_replicate. split.
      - intros [[[_ ?] ?] ?]. split; [lia|]. intros d Hd. lia.
      - intros [Hm2 _]. repeat split; lia. }
    cbn [bindR]. exists (Generated.marked_from 0 sieve').
    destruct (marked_from_spec 0 sieve') as [Hsorted Hin].
    split; [done|]. split; [done|]. intros m. rewrite Hin, Z.sub_0_r. split.
    + intros [Hm Hc]. pose proof (lookup_lt_Some _ _ _ Hc).
      assert (m <= limit) by lia. split; [|done]. by apply Hcells.
    + intros [Hprime Hm]. destruct Hprime as [Hm2 ?]. split; [lia|].
      apply Hcells; [lia|]. by split.
Qed.

(** ** Merge sort *)

(** The index loop of [merge] computes the merge of the two remainders. *)
Lemma merge_loop_spec (fuel : nat) (left right : list Z) (i j : nat) (out : list Z) :
  (length left - i + (length right - j) <= fuel)%nat ->
  Generated.merge_loop fuel left right i j out
  = Ok (out ++ list_merge Z.le (drop i left) (drop j right)).
Proof.
  revert i j out. induction fuel as [|fuel IH]; intros i j out Hfuel.
  - cbn [Generated.merge_loop].
    destruct (Nat.ltb_spec i (length left)), (Nat.ltb_spec j (length right));
      cbn [andb]; try lia.
    rewrite (drop_ge left i) by lia. by rewrite list_merge_nil_l.
  - cbn [Generated.merge_loop].
    destruct (Nat.ltb_spec i (length left)) as [Hi|Hi],
             (Nat.ltb_spec j (length right)) as [Hj|Hj]; cbn [andb].
    + destruct (lookup_lt_is_Some_2 left i Hi) as [x Hx].
      destruct (lookup_lt_is_Some_2 right j Hj) as [y Hy].
      rewrite (py_index_nonneg left (Z.of_nat i) x) by (rewrite ?Nat2Z.id; done || lia).
      rewrite (py_index_nonneg right (Z.of_nat j) y) by (rewrite ?Nat2Z.id; done || lia).
      cbn [bindR].
      rewrite (drop_S left x i Hx), (drop_S right y j Hy), list_merge_cons.
      destruct (Z.leb_spec x y); case_decide; try lia.
      * rewrite IH by lia. rewrite <- app_assoc. cbn [app].
        by rewrite <- (drop_S right y j Hy).
      * rewrite IH by lia. rewrite <- app_assoc. cbn [app].
        by rewrite <- (drop_S left x i Hx).
    + rewrite (drop_ge right j) by lia. by rewrite list_merge_nil_r, app_nil_r.
    + rewrite (drop_ge left i) by lia. by rewrite list_merge_nil_l.
    + rewrite (drop_ge left i) by lia. by rewrite list_merge_nil_l.
Qed.

Lemma merge_spec (left right : list Z) :
  Generated.merge left right = Ok (list_merge Z.le left right).
Proof.
  unfold Generated.merge. rewrite merge_loop_spec by lia. by rewrite !drop_0.
Qed.

(** X8: [merge] returns a list with the elements of both inputs, each as
    often as it occurs in them, and in order when both inputs are; no
    index is out of range. *)
Theorem merge_sorted_permutation (left right : list Z) :
  exists out,
    Generated.merge left right = Ok out /\
    out ≡ₚ left ++ right /\
    (Sorted Z.le left -> Sorted Z.le right -> Sorted Z.le out).
Proof.
  exists (list_merge Z.le left right). rewrite merge_spec.
  split; [done|]. split; [apply merge_Permutation|]. apply Sorted_list_merge; apply _.
Qed.

Lemma merge_sort_within_spec (fuel : nat) (arr : list Z) :
  (length arr <= S fuel)%nat ->
  exists out,
    Generated.merge_sort_within fuel arr = Ok out /\ Sorted Z.le out /\ out ≡ₚ arr.
Proof.
  revert arr. induction fuel as [|fuel IH]; intros arr Hlen.
  - exists arr. cbn [Generated.merge_sort_within].
    destruct (Nat.leb_spec (length arr) 1); [|lia].
    split; [done|]. split; [|done].
    destruct arr as [|x [|y arr]]; [constructor | repeat constructor | cbn in *; lia].
  - cbn [Generated.merge_sort_within].
    destruct (Nat.leb_spec (length arr) 1) as [Hsmall | Hbig].
    + exists arr. split; [done|]. split; [|done].
      destruct arr as [|x [|y arr]]; [constructor | repeat constructor | cbn in *; lia].
    + cbn zeta.
      pose proof (Nat.div_lt (length arr) 2 ltac:(lia) ltac:(lia)) as Hmid.
      assert (1 <= length arr / 2)%nat as Hmid1.
      { apply Nat.div_le_lower_bound; lia. }
      destruct (IH (take (length arr / 2) arr)) as (l & -> & Hl & Hlp).
      { rewrite length_take. lia. }
      destruct (IH (drop (length arr / 2) arr)) as (r & -> & Hr & Hrp).
      { rewrite length_drop. lia. }
      cbn [bindR].
      rewrite merge_spec. exists (list_merge Z.le l r). split; [done|].
      split; [apply Sorted_list_merge; (done || apply _)|].
      by rewrite merge_Permutation, Hlp, Hrp, take_drop.
Qed.

(** X9: [merge_sort] returns the elements of its input in non-decreasing
    order; the recursion ends within the depth allowed. *)
Theorem merge_sort_sorts (arr : list Z) :
  exists out,
    Generated.merge_sort arr = Ok out /\ Sorted Z.le out /\ out ≡ₚ arr.
Proof. apply merge_sort_within_spec. lia. Qed.

(** ** The Levenshtein distance *)

Lemma edit_distance_nil_r (ra : list ascii) : edit_distance ra [] = Z.of_nat (length ra).
Proof. by destruct ra. Qed.

Lemma edit_distance_cons (x y : ascii) (ra rb : list ascii) :
  edit_distance (x :: ra) (y :: rb)
  = Z.min (Z.min (edit_distance (x :: ra) rb + 1) (edit_distance ra (y :: rb) + 1))
          (edit_distance ra rb + Generated.differ x y).
Proof. reflexivity. Qed.

Lemma differ_cases (x y : ascii) :
  (x = y /\ Generated.differ x y = 0) \/ (x <> y /\ Generated.differ x y = 1).
Proof. unfold Generated.differ. destruct (Ascii.eqb_spec x y); [by left | by right]. Qed.

Lemma edit_distance_bounds (ra rb : list ascii) :
  Z.abs (Z.of_nat (length ra) - Z.of_nat (length rb)) <= edit_distance ra rb
  <= Z.max (Z.of_nat (length ra)) (Z.of_nat (length rb)).
Proof.
  revert rb. induction ra as [|x ra IHra]; intros rb; [cbn; lia|].
  induction rb as [|y rb IHrb]; [rewrite edit_distance_nil_r; cbn [length]; lia|].
  rewrite edit_distance_cons.
  pose proof (IHra (y :: rb)). pose proof (IHra rb).
  destruct (differ_cases x y) as [[_ ->] | [_ ->]]; cbn [length] in *; lia.
Qed.

Lemma edit_distance_zero (ra rb : list ascii) : edit_distance ra rb = 0 <-> ra = rb.
Proof.
  revert rb. induction ra as [|x ra IHra]; intros rb.
  - cbn. destruct rb; cbn; split; (done || lia).
  - induction rb as [|y rb IHrb]; [rewrite edit_distance_nil_r; cbn; split; (done || lia)|].
    rewrite edit_distance_cons.
    pose proof (edit_distance_bounds (x :: ra) rb).
    pose proof (edit_distance_bounds ra (y :: rb)).
    pose proof (edit_distance_bounds ra rb).
    destruct (differ_cases x y) as [[-> ->] | [Hne ->]].
    + split.
      * intros Hmin. f_equal. apply IHra. lia.
      * intros [= ->]. assert (edit_distance rb rb = 0) by by apply IHra. lia.
    + split; [lia | congruence].
Qed.

Lemma differ_sym (x y : ascii) : Generated.differ x y = Generated.differ y x.
Proof.
  unfold Generated.differ.
  destruct (Ascii.eqb_spec x y), (Ascii.eqb_spec y x); congruence.
Qed.

Lemma edit_distance_sym (ra rb : list ascii) : edit_distance ra rb = edit_distance rb ra.
Proof.
  revert rb. induction ra as [|x ra IHra]; intros rb.
  - by rewrite edit_distance_nil_r.
  - induction rb as [|y rb IHrb]; [by rewrite edit_distance_nil_r|].
    rewrite !edit_distance_cons, IHrb, (IHra (y :: rb)), (IHra rb), (differ_sym x y). lia.
Qed.

Lemma lookup_map_seq {A} (f : nat -> A) (start n k : nat) :
  (k < n)%nat -> map f (seq start n) !! k = Some (f (start + k)%nat).
Proof.
  revert start k. induction n as [|n IH]; intros start k Hk; [lia|].
  destruct k as [|k]; cbn [seq map]; [by rewrite Nat.add_0_r|].
  cbn. rewrite IH by lia. f_equal. f_equal. lia.
Qed.

Lemma map_seq_snoc {A} (f : nat -> A) (n : nat) :
  map f (seq 0 (S n)) = map f (seq 0 n) ++ [f n].
Proof. by rewrite List.seq_S, map_app. Qed.

Lemma distance_row_lookup (ra b : list ascii) (k : nat) :
  (k <= length b)%nat ->
  distance_row ra b !! k = Some (edit_distance ra (rev (take k b))).
Proof. intros Hk. unfold distance_row. by rewrite lookup_map_seq by lia. Qed.

(** The inner loop completes the row of the next prefix of [a]. *)
Lemma levenshtein_row_spec (ra b : list ascii) (ca : ascii) (rest pb : list ascii) :
  b = pb ++ rest ->
  Generated.levenshtein_row (distance_row ra b) ca rest (Z.of_nat (length pb) + 1)
    (map (fun k => edit_distance (ca :: ra) (rev (take k b))) (seq 0 (S (length pb))))
  = Ok (distance_row (ca :: ra) b).
Proof.
  revert pb. induction rest as [|cb rest IH]; intros pb Hb.
  - rewrite app_nil_r in Hb. subst pb. done.
  - cbn [Generated.levenshtein_row].
    assert (length b = length pb + S (length rest))%nat as Hlen
      by (rewrite Hb, length_app; done).
    assert (take (length pb) b = pb) as Hpb by (rewrite Hb; apply take_app_length).
    assert (take (S (length pb)) b = pb ++ [cb]) as Hpb'.
    { rewrite Hb. replace (pb ++ cb :: rest) with ((pb ++ [cb]) ++ rest)
        by (by rewrite <- app_assoc).
      replace (S (length pb)) with (length (pb ++ [cb])) by (rewrite length_app; cbn; lia).
      apply take_app_length. }
    replace (Z.of_nat (length pb) + 1 - 1) with (Z.of_nat (length pb)) by lia.
    rewrite (py_index_nonneg _ (Z.of_nat (length pb))
               (edit_distance (ca :: ra) (rev pb))).
    2: lia.
    2:{ rewrite Nat2Z.id, lookup_map_seq by lia. cbn [Nat.add]. by rewrite Hpb. }
    cbn [bindR].
    rewrite (py_index_nonneg _ (Z.of_nat (length pb) + 1)
               (edit_distance ra (cb :: rev pb))).
    2: lia.
    2:{ replace (Z.to_nat (Z.of_nat (length pb) + 1)) with (S (length pb)) by lia.
        rewrite distance_row_lookup by lia. by rewrite Hpb', rev_unit. }
    cbn [bindR].
    rewrite (py_index_nonneg _ (Z.of_nat (length pb)) (edit_distance ra (rev pb))).
    2: lia.
    2:{ rewrite Nat2Z.id, distance_row_lookup by lia. by rewrite Hpb. }
    cbn [bindR].
    rewrite <- edit_distance_cons.
    specialize (IH (pb ++ [cb]) ltac:(by rewrite <- app_assoc)).
    rewrite length_app in IH. cbn [length] in IH.
    replace (Z.of_nat (length pb) + 1 + 1) with (Z.of_nat (length pb + 1) + 1) by lia.
    rewrite <- IH. f_equal.
    replace (S (length pb + 1)) with (S (S (length pb))) by lia.
    rewrite (map_seq_snoc _ (S (length pb))). by rewrite Hpb', rev_unit.
Qed.

(** The outer loop ends with the row of the whole of [a]. *)
Lemma levenshtein_rows_spec (rest ra b : list ascii) :
  Generated.levenshtein_rows rest (Z.of_nat (length ra) + 1) b (distance_row ra b)
  = Ok (distance_row (rev rest ++ ra) b).
Proof.
  revert ra. induction rest as [|ca rest IH]; intros ra; [done|].
  cbn [Generated.levenshtein_rows].
  pose proof (levenshtein_row_spec ra b ca b [] eq_refl) as Hrow.
  cbn [length seq map] in Hrow.
  replace (take 0 b) with (@nil ascii) in Hrow by (by destruct b). cbn [rev] in Hrow.
  replace (Z.of_nat 0 + 1) with 1 in Hrow by lia.
  replace (edit_distance (ca :: ra) []) with (Z.of_nat (length ra) + 1) in Hrow
    by (rewrite edit_distance_nil_r; cbn [length]; lia).
  rewrite Hrow. cbn [bindR].
  specialize (IH (ca :: ra)). cbn [length] in IH.
  replace (Z.of_nat (length ra) + 1 + 1) with (Z.of_nat (S (length ra)) + 1) by lia.
  rewrite IH. cbn [rev]. by rewrite <- app_assoc.
Qed.

Lemma levenshtein_spec (a b : list ascii) :
  Generated.levenshtein a b = Ok (edit_distance (rev a) (rev b)).
Proof.
  unfold Generated.levenshtein. case_bool_decide as Hab.
  - subst b. f_equal. symmetry. by apply edit_distance_zero.
  - destruct a as [|ca a].
    { cbn [rev edit_distance]. by rewrite List.length_rev. }
    destruct b as [|cb b].
    { by rewrite edit_distance_nil_r, List.length_rev. }
    set (a' := ca :: a). set (b' := cb :: b).
    assert (map Z.of_nat (seq 0 (length b' + 1)) = distance_row [] b') as ->.
    { unfold distance_row. replace (length b' + 1)%nat with (S (length b')) by lia.
      apply map_ext_in. intros k Hk%in_seq. cbn [edit_distance].
      rewrite List.length_rev, length_take. lia. }
    pose proof (levenshtein_rows_spec a' [] b') as Hrows.
    cbn [length] in Hrows. replace (Z.of_nat 0 + 1) with 1 in Hrows by lia.
    rewrite Hrows, app_nil_r. cbn [bindR].
    unfold distance_row. rewrite map_seq_snoc, py_index_last. by rewrite firstn_all.
Qed.

(** X10: [levenshtein] returns the edit distance of its arguments, as the
    recurrence over their prefixes defines it; its three early returns
    agree with the recurrence and no index is out of range. *)
Theorem levenshtein_is_edit_distance (a b : list ascii) :
  Generated.levenshtein a b = Ok (edit_distance (rev a) (rev b)).
Proof. apply levenshtein_spec. Qed.

(** X11: the distance that [levenshtein] returns is zero exactly when the
    two texts are equal, does not depend on the order of the arguments,
    and lies between the difference and the larger of the two lengths. *)
Theorem levenshtein_metric (a b : list ascii) :
  exists d,
    Generated.levenshtein a b = Ok d /\
    Generated.levenshtein b a = Ok d /\
    (d = 0 <-> a = b) /\
    Z.abs (Z.of_nat (length a) - Z.of_nat (length b)) <= d
      <= Z.max (Z.of_nat (length a)) (Z.of_nat (length b)).
Proof.
  exists (edit_distance (rev a) (rev b)). rewrite !levenshtein_spec.
  split; [done|]. split; [by rewrite edit_distance_sym|]. split.
  - rewrite edit_distance_zero. split; [|by intros ->].
    intros H. apply (f_equal (@rev ascii)) in H. by rewrite !rev_involutive in H.
  - pose proof (edit_distance_bounds (rev a) (rev b)) as H. by rewrite !List.length_rev in H.
Qed.

(** ** Dijkstra on a rectangular grid *)

(** X12: [neighbors] yields exactly the cells of the R x C grid that are
    one step up, down, left or right of the cell. *)
Theorem neighbors_adjacent_in_bounds (r c R C nr nc : Z) :
  In (nr, nc) (Generated.neighbors r c R C) <->
  0 <= nr < R /\ 0 <= nc < C /\ Z.abs (nr - r) + Z.abs (nc - c) = 1.
Proof.
  unfold Generated.neighbors. rewrite filter_In. cbn [map In].
  rewrite !andb_true_iff, !Z.leb_le, !Z.ltb_lt. split.
  - intros [[H | [H | [H | [H | []]]]] Hb]; injection H as <- <-; lia.
  - intros (Hr & Hc & Hd). split; [|lia].
    assert ((nr = r + 1 /\ nc = c + 0) \/ (nr = r + -1 /\ nc = c + 0) \/
            (nr = r + 0 /\ nc = c + 1) \/ (nr = r + 0 /\ nc = c + -1)) as Hcases by lia.
    destruct Hcases as [[-> ->] | [[-> ->] | [[-> ->] | [-> ->]]]]; auto 6.
Qed.

Lemma at2_shaped {A} (R C : nat) (table : list (list A)) (r c : Z) :
  shaped R C table -> 0 <= r < Z.of_nat R -> 0 <= c < Z.of_nat C ->
  exists x, Generated.at2 table r c = Ok x.
Proof.
  intros [Hlen Hrows] Hr Hc.
  destruct (lookup_lt_is_Some_2 table (Z.to_nat r)) as [row Hrow]; [lia|].
  pose proof (Forall_lookup_1 _ _ _ _ Hrows Hrow) as Hlen'. cbn in Hlen'.
  destruct (lookup_lt_is_Some_2 row (Z.to_nat c)) as [x Hx]; [lia|].
  exists x. unfold Generated.at2.
  rewrite (py_index_nonneg table r row) by (done || lia). cbn [bindR].
  apply py_index_nonneg; [lia | done].
Qed.

Lemma set2_shaped {A} (R C : nat) (table : list (list A)) (r c : Z) (x : A) :
  shaped R C table -> shaped R C (Generated.set2 table r c x).
Proof.
  intros [Hlen Hrows]. unfold Generated.set2. split; [by rewrite length_alter|].
  apply Forall_alter; [done|]. intros row _ Hrow. by rewrite length_insert.
Qed.

Lemma smallest_in (x : Z * Z * Z) (pq : list (Z * Z * Z)) :
  In (Generated.smallest x pq) (x :: pq).
Proof.
  unfold Generated.smallest. revert x. induction pq as [|y pq IH]; intros x; [by left|].
  cbn [fold_left]. destruct (Generated.tuple_ltb y x).
  - destruct (IH y) as [<- | Hin]; [right; by left | right; by right].
  - destruct (IH x) as [<- | Hin]; [by left | right; by right].
Qed.

Lemma remove_first_incl (x : Z * Z * Z) (pq : list (Z * Z * Z)) (y : Z * Z * Z) :
  In y (Generated.remove_first x pq) -> In y pq.
Proof.
  induction pq as [|z pq IH]; [done|]. cbn [Generated.remove_first].
  case_decide; [by right|]. intros [<- | Hin]; [by left | right; auto].
Qed.

Lemma heappop_Forall (P : Z * Z * Z -> Prop) (pq rest : list (Z * Z * Z)) (m : Z * Z * Z) :
  Forall P pq -> Generated.heappop pq = Some (m, rest) -> P m /\ Forall P rest.
Proof.
  rewrite !List.Forall_forall. intros Hall. destruct pq as [|x pq]; [done|].
  unfold Generated.heappop. intros [= <- <-]. split.
  - apply Hall, smallest_in.
  - intros y Hy. apply Hall. by eapply remove_first_incl.
Qed.

Section Grid.
Variables (R C : nat) (grid : list (list Z)).
Hypothesis grid_shaped : shaped R C grid.

Lemma relax_safe (d : Z) (ns : list (Z * Z)) (dist : list (list (option Z)))
    (pq : list (Z * Z * Z)) :
  Forall (fun n => 0 <= n.1 < Z.of_nat R /\ 0 <= n.2 < Z.of_nat C) ns ->
  shaped R C dist -> Forall (in_grid R C) pq ->
  exists dist' pq',
    Generated.relax grid d ns dist pq = Ok (dist', pq') /\
    shaped R C dist' /\ Forall (in_grid R C) pq'.
Proof.
  revert dist pq. induction ns as [|[nr nc] ns IH]; intros dist pq Hns Hdist Hpq.
  - by exists dist, pq.
  - apply Forall_cons in Hns as [[Hr Hc] Hns]. cbn [fst snd] in Hr, Hc.
    cbn [Generated.relax].
    destruct (at2_shaped R C grid nr nc) as (w & ->); [done..|]. cbn [bindR].
    destruct (at2_shaped R C dist nr nc) as (old & ->); [done..|]. cbn [bindR].
    destruct (Generated.below (d + w) old).
    + apply IH; [done | by apply set2_shaped |].
      unfold Generated.heappush. by constructor.
    + by apply IH.
Qed.

Lemma dijkstra_loop_safe (fuel : nat) (goal : Z * Z) (dist : list (list (option Z)))
    (pq : list (Z * Z * Z)) :
  shaped R C dist -> Forall (in_grid R C) pq ->
  (exists d, Generated.dijkstra_loop fuel grid (Z.of_nat R) (Z.of_nat C) goal dist pq = Ok d)
  \/ Generated.dijkstra_loop fuel grid (Z.of_nat R) (Z.of_nat C) goal dist pq
     = Raise OutOfFuel.
Proof.
  revert dist pq. induction fuel as [|fuel IH]; intros dist pq Hdist Hpq.
  - cbn [Generated.dijkstra_loop].
    destruct (Generated.heappop pq) as [[[[d r] c] pq']|]; [by right | left; eauto].
  - cbn [Generated.dijkstra_loop].
    destruct (Generated.heappop pq) as [[[[d r] c] pq']|] eqn:Hpop; [|left; eauto].
    destruct (heappop_Forall _ _ _ _ Hpq Hpop) as [[Hr Hc] Hpq']. cbn [fst snd] in Hr, Hc.
    case_decide; [left; eauto|].
    destruct (at2_shaped R C dist r c) as (cur & ->); [done..|]. cbn [bindR].
    destruct (negb (bool_decide (Some d = cur))); [by apply IH|].
    destruct (relax_safe d (Generated.neighbors r c (Z.of_nat R) (Z.of_nat C)) dist pq')
      as (dist' & pq'' & -> & Hdist' & Hpq''); [|done|done|].
    { apply List.Forall_forall. intros [nr nc] Hn%neighbors_adjacent_in_bounds.
      cbn [fst snd]. lia. }
    cbn [bindR fst snd]. by apply IH.
Qed.

End Grid.

Lemma rectangular_shaped (grid : list (list Z)) :
  rectangular grid = true -> shaped (length grid) (length (hd [] grid)) grid.
Proof.
  unfold rectangular. intros Hrect. split; [done|].
  apply List.Forall_forall. intros row Hrow.
  rewrite forallb_forall in Hrect. by apply Nat.eqb_eq, Hrect.
Qed.

(** X13: on a grid that is not empty, whose rows are not empty and all as
    long as the first, [dijkstra] never indexes out of bounds: whatever
    the number of rounds allowed it returns a cost or is still running
    when the rounds are used up. *)
Theorem dijkstra_safe_on_rectangular (fuel : nat) (grid : list (list Z)) :
  grid <> [] -> hd [] grid <> [] -> rectangular grid = true ->
  (exists d, Generated.dijkstra fuel grid = Ok d)
  \/ Generated.dijkstra fuel grid = Raise OutOfFuel.
Proof.
  intros Hgrid Hrow Hrect. pose proof (rectangular_shaped grid Hrect) as Hshape.
  destruct grid as [|row0 grid']; [done|]. cbn [hd] in Hrow, Hshape.
  set (grid := row0 :: grid') in *.
  unfold Generated.dijkstra.
  rewrite (py_index_nonneg grid 0 row0) by done. cbn [bindR].
  assert (0 < length row0)%nat by (destruct row0; [done | cbn; lia]).
  assert (0 < length grid)%nat by (cbn; lia).
  destruct (at2_shaped _ _ grid 0 0 Hshape) as (w0 & ->); [lia..|]. cbn [bindR].
  rewrite !Nat2Z.id. apply dijkstra_loop_safe; [done | |].
  - apply set2_shaped. split; [by rewrite length_replicate|].
    apply Forall_replicate. by rewrite length_replicate.
  - constructor; [|done]. unfold in_grid. cbn [fst snd]. lia.
Qed.

(** ** The snippet script, run after run *)

Section SnippetRuns.
Context {G : RandomGen} {L : RandomGenLaws G}.
Variable clock : nat -> datetime.

Lemma snippet_script_spec (rng rng' : rng_state) (w : world) (snippet : string) :
  let today := Strftime.Y_m_d (clock (now_calls w)) in
  choice SnippetScript.snippets rng = Ok (snippet, rng') ->
  SnippetScript.script clock rng w
  = (Ok (SnippetScript.file_path today),
     {| files :=
          <[SnippetScript.readme :=
              default ("# Daily Python Code Log" +:+ nl +:+ nl)
                      (files w !! SnippetScript.readme) +:+ SnippetScript.entry today]>
            (<[["daily_code"%string; today +:+ ".py"] :=
                 ("# Auto-generated on " +:+ today +:+ nl) +:+ (snippet +:+ nl)]> (files w));
        now_calls := S (now_calls w);
        stdout := stdout w ++ ["Generated " +:+ SnippetScript.file_path today] |}).
Proof.
  intros today Hpick. subst today.
  unfold SnippetScript.script, bindIO at 1, Fs.mkdir, retIO at 1.
  unfold bindIO at 1, utcnow at 1.
  unfold bindIO at 1, liftR at 1. rewrite Hpick. cbn [fst files now_calls stdout].
  unfold bindIO at 1, Fs.write_text at 1. cbn [files now_calls stdout].
  unfold bindIO at 1, Fs.exists_ at 1. cbn [files now_calls stdout].
  rewrite lookup_insert_ne by (intros Hp; discriminate Hp).
  destruct (files w !! SnippetScript.readme) as [log|] eqn:Hlog.
  - rewrite bool_decide_eq_true_2 by eauto.
    unfold bindIO, Fs.append_text, Fs.write_text, Fs.print, retIO.
    cbn [files now_calls stdout].
    rewrite lookup_insert_ne by (intros Hp; discriminate Hp). by rewrite Hlog.
  - rewrite bool_decide_eq_false_2 by (intros [? ?]; done).
    unfold bindIO, Fs.write_text, Fs.print, retIO. done.
Qed.

(** X14: the snippet script returns; [daily_code/<date>.py] then holds the
    date comment and one of the four snippets, whatever it held before;
    the log [README.md] is its previous content, or its title when it did
    not exist, followed by the entry of the day; no other file changes. *)
Theorem snippet_script_run (rng : rng_state) (w : world) :
  let today := Strftime.Y_m_d (clock (now_calls w)) in
  exists snippet w',
    In snippet SnippetScript.snippets /\
    SnippetScript.script clock rng w = (Ok (SnippetScript.file_path today), w') /\
    files w' !! ["daily_code"%string; today +:+ ".py"]
      = Some (("# Auto-generated on " +:+ today +:+ nl) +:+ (snippet +:+ nl)) /\
    files w' !! SnippetScript.readme
      = Some (default ("# Daily Python Code Log" +:+ nl +:+ nl)
                      (files w !! SnippetScript.readme) +:+ SnippetScript.entry today) /\
    (forall q, q <> ["daily_code"%string; today +:+ ".py"] -> q <> SnippetScript.readme ->
               files w' !! q = files w !! q).
Proof.
  intros today.
  destruct (choice_in SnippetScript.snippets rng ltac:(done)) as (snippet & rng' & Hpick & Hin).
  exists snippet. eexists. split; [done|].
  split; [by apply (snippet_script_spec rng rng')|]. cbn [files]. split; [|split].
  - rewrite lookup_insert_ne by (intros Hp; discriminate Hp). apply lookup_insert_eq.
  - apply lookup_insert_eq.
  - intros q Hq1 Hq2. by rewrite !lookup_insert_ne.
Qed.

End SnippetRuns.

(** ** The scaffolding on a tree without index, and what a run reports *)

(** X15: on a tree without index [ensure_index] creates the index with
    the header as its whole content and an empty [.gitkeep] unless one
    exists; every file that exists, [.gitkeep] included, stays as it
    is. *)
Theorem ensure_index_creates (ROOT : list string) (w : world) :
  files w !! index_path ROOT = None ->
  exists w',
    ensure_index ROOT w = (Ok tt, w') /\
    files w' !! index_path ROOT = Some index_header /\
    files w' !! (OUT_DIR ROOT / ".gitkeep")%list
      = Some (default EmptyString (files w !! (OUT_DIR ROOT / ".gitkeep")%list)) /\
    (forall p c, files w !! p = Some c -> files w' !! p = Some c) /\
    (forall p, p <> index_path ROOT -> p <> (OUT_DIR ROOT / ".gitkeep")%list ->
               files w' !! p = files w !! p).
Proof.
  intros Hnone. eexists. split; [apply ensure_index_spec|]. cbn [files].
  split; [by rewrite ensured_index, Hnone|]. split; [|split].
  - destruct (files w !! (OUT_DIR ROOT / ".gitkeep")%list) as [c|] eqn:Hk.
    + by apply ensured_existing.
    + unfold ensured. rewrite Hk.
      rewrite lookup_insert_ne by apply keep_not_index. rewrite Hnone.
      rewrite lookup_insert_ne by (symmetry; apply keep_not_index).
      apply lookup_insert_eq.
  - intros p c. apply ensured_existing.
  - intros p. apply ensured_other.
Qed.

Section Report.
Context {G : RandomGen} {L : RandomGenLaws G}.

(** X16: a run reads the clock four times and prints one line, [Wrote]
    followed by the path of the file it wrote, relative to the root; the
    same relative path is the link of the line that it appends to the
    index, and the file written holds the rendered template. *)
Theorem main_reports_what_it_wrote (ROOT : list string) (clock : nat -> datetime)
    (w : world) :
  datetime_ok (clock (now_calls w)) ->
  exists t kw rel w' text now,
    main ROOT clock w = (Ok (t, kw, ROOT ++ rel), w') /\
    now_calls w' = (4 + now_calls w)%nat /\
    stdout w' = stdout w ++ ["Wrote " +:+ Fs.as_posix rel] /\
    rendered t kw (Strftime.Y_m_d (clock (S (now_calls w)))) = Ok text /\
    files w' !! (ROOT ++ rel) = Some text /\
    files w' !! index_path ROOT
      = Some (default index_header (files w !! index_path ROOT) +:+
              index_line now (Fs.as_posix rel) (name t) (desc t)).
Proof.
  intros Hok.
  destruct (main_spec ROOT clock w Hok)
    as (seed & t & s1 & kw & s2 & text & k & _ & _ & _ & _ & Htext & _ & _ & Hmain).
  cbn zeta in Hmain.
  eexists t, kw, _, _, text, _. split.
  { rewrite Hmain. f_equal. f_equal. unfold candidate, OUT_DIR, Fs.div.
    rewrite <- !app_assoc. reflexivity. }
  cbn [now_calls stdout files]. split; [done|]. split; [done|]. split; [done|]. split.
  - rewrite lookup_insert_ne.
    + replace (ROOT ++ [("daily_code")%string] ++
                 [Strftime.pY (clock (S (S (now_calls w))))] ++
                 [candidate_name (Strftime.Y_m_d (clock (S (now_calls w))))
                    (slugify (name t)) k])
        with (candidate (OUT_DIR ROOT / Strftime.pY (clock (S (S (now_calls w)))))
                (Strftime.Y_m_d (clock (S (now_calls w)))) (slugify (name t)) k).
      * apply lookup_insert_eq.
      * unfold candidate, OUT_DIR, Fs.div. by rewrite <- !app_assoc.
    + unfold index_path, OUT_DIR, Fs.div. intros H.
      apply (f_equal length) in H. rewrite !length_app in H. cbn in H. lia.
  - apply lookup_insert_eq.
Qed.

End Report.

(** ** The further properties at concrete inputs *)

Lemma grid_params_shape_witness :
  exists g s',
    params (@dijkstra_on_grid LcgGen) 20240104 = Ok ({[ "GRID"%string := VGrid g ]}, s') /\
    4 <= Z.of_nat (length g) <= 6 /\
    Forall (fun row => 4 <= Z.of_nat (length row) <= 6 /\
                       Forall (fun x => 1 <= x <= 9) row) g.
Proof. apply (grid_params_shape (G := LcgGen) (L := LcgLaws) 20240104). Defined.

Lemma word_params_shape_witness :
  exists a b s',
    params (@levenshtein_distance LcgGen) 20240104
      = Ok (<[ "B"%string := VStr b ]> {[ "A"%string := VStr a ]}, s') /\
    4 <= Z.of_nat (String.length a) <= 7 /\
    4 <= Z.of_nat (String.length b) <= 7 /\
    Forall (fun c => In c (list_ascii_of_string "codecraft")) (list_ascii_of_string a) /\
    Forall (fun c => In c (list_ascii_of_string "workflows")) (list_ascii_of_string b).
Proof. apply (word_params_shape (G := LcgGen) (L := LcgLaws) 20240104). Defined.


Lemma scalar_params_in_range_witness :
  (exists n s', params (@fibonacci_iterative LcgGen) 20240104
                = Ok ({[ "N"%string := VInt n ]}, s') /\ 8 <= n <= 20) /\
  (exists n s', params (@sieve_of_eratosthenes LcgGen) 20240104
                = Ok ({[ "LIMIT"%string := VInt n ]}, s') /\ 50 <= n <= 200).
Proof. apply (scalar_params_in_range (G := LcgGen) (L := LcgLaws) 20240104). Defined.

Lemma merge_sorted_permutation_witness :
  exists out,
    Generated.merge [1; 4] [2; 3] = Ok out /\
    out ≡ₚ [1; 4] ++ [2; 3] /\
    Sorted Z.le out.
Proof.
  destruct (merge_sorted_permutation [1; 4] [2; 3]) as (out & Hrun & Hperm & Hsorted).
  exists out. split; [exact Hrun|]. split; [exact Hperm|].
  apply Hsorted; repeat constructor; lia.
Defined.

Lemma dijkstra_safe_on_rectangular_witness :
  (exists d, Generated.dijkstra 1000 [[1; 2; 3]; [4; 5; 6]; [7; 8; 9]] = Ok d)
  \/ Generated.dijkstra 1000 [[1; 2; 3]; [4; 5; 6]; [7; 8; 9]] = Raise OutOfFuel.
Proof.
  apply (dijkstra_safe_on_rectangular 1000 [[1; 2; 3]; [4; 5; 6]; [7; 8; 9]]).
  - discriminate.
  - cbn. discriminate.
  - reflexivity.
Defined.

Lemma snippet_script_run_witness :
  let today := Strftime.Y_m_d jan4_morning in
  exists snippet w',
    In snippet (SnippetScript.snippets) /\
    SnippetScript.script (G := LcgGen) (fun _ => jan4_morning) 42 empty_world
      = (Ok (SnippetScript.file_path today), w') /\
    files w' !! ["daily_code"%string; today +:+ ".py"]
      = Some (("# Auto-generated on " +:+ today +:+ nl) +:+ (snippet +:+ nl)) /\
    files w' !! SnippetScript.readme
      = Some (default ("# Daily Python Code Log" +:+ nl +:+ nl)
                      (files empty_world !! SnippetScript.readme)
              +:+ SnippetScript.entry today) /\
    (forall q, q <> ["daily_code"%string; today +:+ ".py"] -> q <> SnippetScript.readme ->
               files w' !! q = files empty_world !! q).
Proof.
  apply (snippet_script_run (G := LcgGen) (L := LcgLaws) (fun _ => jan4_morning)
           42 empty_world).
Defined.

Lemma ensure_index_creates_witness :
  exists w',
    ensure_index example_root empty_world = (Ok tt, w') /\
    files w' !! index_path example_root = Some index_header /\
    files w' !! (OUT_DIR example_root / ".gitkeep")%list
      = Some (default EmptyString
                (files empty_world !! (OUT_DIR example_root / ".gitkeep")%list)) /\
    (forall p c, files empty_world !! p = Some c -> files w' !! p = Some c) /\
    (forall p, p <> index_path example_root ->
               p <> (OUT_DIR example_root / ".gitkeep")%list ->
               files w' !! p = files empty_world !! p).
Proof. apply (ensure_index_creates example_root empty_world). apply lookup_empty. Defined.

Lemma main_reports_what_it_wrote_witness :
  exists t kw rel w' text now,
    main (G := LcgGen) example_root (fun _ => jan4_morning) empty_world
      = (Ok (t, kw, example_root ++ rel), w') /\
    now_calls w' = (4 + now_calls empty_world)%nat /\
    stdout w' = stdout empty_world ++ ["Wrote " +:+ Fs.as_posix rel] /\
    rendered t kw (Strftime.Y_m_d jan4_morning) = Ok text /\
    files w' !! (example_root ++ rel) = Some text /\
    files w' !! index_path example_root
      = Some (default index_header (files empty_world !! index_path example_root) +:+
              index_line now (Fs.as_posix rel) (name t) (desc t)).
Proof.
  apply (main_reports_what_it_wrote (G := LcgGen) (L := LcgLaws) example_root
           (fun _ => jan4_morning) empty_world).
  unfold datetime_ok. cbn. lia.
Defined.
